(** * UDP webcam server: registry, control channel and frame fan-out

    A shallow embedding of [udp_webcam_server.py] (class [UDPWebcamServer])
    and the properties of its datagram protocol.

    Python values are modelled as follows.
    - [bytes] objects are lists of [Byte.byte];
    - [str] objects are lists of Unicode code points ([Z]);
    - Python integers are [Z] (unbounded, as in the language);
    - the set [self.clients] is a [gset] of addresses;
    - an exception is a [None] result or an explicit flag, and the [try]
      blocks of the source decide what happens to it; every [sendto] can
      raise, and its outcome is an input of the model;
    - [print] is left out: writing to the console is taken to succeed;
    - each thread body ([listen_for_clients], [listen_for_controls],
      [send_frames]) is a function from the part of [self] it touches and
      the outcome of its blocking calls to the new state and the datagrams
      it hands to [sendto]. *)

From Stdlib Require Import ZArith Lia List Bool.
From Stdlib Require Import Strings.String Strings.Byte.
From stdpp Require Import base tactics option list gmap sets strings.

Local Open Scope Z_scope.

(** ** Bytes and text *)

Definition bytes : Type := list byte.

(** A decoded [str]: the sequence of its code points. *)
Definition text : Type := list Z.

Definition byte_val (b : byte) : Z := Z.of_N (Byte.to_N b).

Definition byte_of_Z (v : Z) : byte :=
  match Byte.of_N (Z.to_N (Z.land v 255)) with
  | Some b => b
  | None => x00
  end.

(** A bytes literal [b"..."]. *)
Definition lit (s : string) : bytes := list_byte_of_string s.

(** A string literal ["..."] whose characters are ASCII. *)
Definition str (s : string) : text := byte_val <$> list_byte_of_string s.

(** ** [bytes.decode('utf-8')]

    Strict decoding: [None] stands for [UnicodeDecodeError].  Overlong
    forms, surrogates and values above U+10FFFF are refused, as the codec
    does. *)

Definition between (lo hi v : Z) : bool := (lo <=? v) && (v <=? hi).

Definition continuation (b : byte) : bool := between 128 191 (byte_val b).

Definition payload6 (b : byte) : Z := Z.land (byte_val b) 63.

Definition second_lo (lead : Z) : Z :=
  if lead =? 224 then 160 else if lead =? 240 then 144 else 128.

Definition second_hi (lead : Z) : Z :=
  if lead =? 237 then 159 else if lead =? 244 then 143 else 191.

Fixpoint utf8_decode (data : bytes) : option text :=
  match data with
  | [] => Some []
  | b0 :: r0 =>
    let v0 := byte_val b0 in
    if v0 <? 128 then cons v0 <$> utf8_decode r0
    else if between 194 223 v0 then
      match r0 with
      | b1 :: r1 =>
        if continuation b1
        then cons (Z.shiftl (Z.land v0 31) 6 + payload6 b1) <$> utf8_decode r1
        else None
      | _ => None
      end
    else if between 224 239 v0 then
      match r0 with
      | b1 :: b2 :: r2 =>
        if between (second_lo v0) (second_hi v0) (byte_val b1) && continuation b2
        then cons (Z.shiftl (Z.land v0 15) 12 + Z.shiftl (payload6 b1) 6
                   + payload6 b2) <$> utf8_decode r2
        else None
      | _ => None
      end
    else if between 240 244 v0 then
      match r0 with
      | b1 :: b2 :: b3 :: r3 =>
        if between (second_lo v0) (second_hi v0) (byte_val b1)
           && continuation b2 && continuation b3
        then cons (Z.shiftl (Z.land v0 7) 18 + Z.shiftl (payload6 b1) 12
                   + Z.shiftl (payload6 b2) 6 + payload6 b3) <$> utf8_decode r3
        else None
      | _ => None
      end
    else None
  end.

(** ** [str] methods used by the listeners *)

(** [str.isspace] on one character: the code points CPython's
    [_PyUnicode_IsWhitespace] accepts. *)
Definition isspace (c : Z) : bool :=
  between 9 13 c || between 28 32 c || (c =? 133) || (c =? 160)
  || (c =? 5760) || between 8192 8202 c || (c =? 8232) || (c =? 8233)
  || (c =? 8239) || (c =? 8287) || (c =? 12288).

Fixpoint lstrip (s : text) : text :=
  match s with
  | c :: r => if isspace c then lstrip r else s
  | [] => []
  end.

Fixpoint rstrip (s : text) : text :=
  match s with
  | [] => []
  | c :: r =>
    match rstrip r with
    | [] => if isspace c then [] else [c]
    | r' => c :: r'
    end
  end.

(** [s.strip()] *)
Definition strip (s : text) : text := rstrip (lstrip s).

(** [s.startswith(p)] *)
Fixpoint startswith (s p : text) {struct p} : bool :=
  match p, s with
  | [], _ => true
  | c :: p', d :: s' => (c =? d) && startswith s' p'
  | _ :: _, [] => false
  end.

(** [s.split(sep)] for a one-character separator. *)
Fixpoint split (sep : Z) (s : text) : list text :=
  match s with
  | [] => [[]]
  | c :: r =>
    if c =? sep then [] :: split sep r
    else match split sep r with
         | f :: fs => (c :: f) :: fs
         | [] => [[c]]
         end
  end.

Definition colon : Z := 58.
Definition comma : Z := 44.

(** ** [int(s)]

    Base ten, as [PyLong_FromUnicodeObject] does it.  The text is first
    brought to ASCII: a text that is all ASCII is taken as it is; in any
    other text a character below 127 is kept, a whitespace character
    becomes a space, a decimal digit of Unicode becomes the ASCII digit of
    its value, and at the first other character the buffer ends with a
    question mark.  [PyLong_FromString] then skips the whitespace of C at
    both ends and reads an optional sign and digits, with single
    underscores allowed between two digits.  [None] stands for
    [ValueError].  CPython's limit on the number of digits (4300) is out of
    reach of a text read from one [recvfrom(1024)]. *)

Definition isdigit (c : Z) : bool := between 48 57 c.

Fixpoint int_digits (acc : Z) (s : text) : option Z :=
  match s with
  | [] => Some acc
  | c :: r =>
    if isdigit c then int_digits (10 * acc + (c - 48)) r
    else if c =? 95 then
      match r with
      | d :: r' => if isdigit d then int_digits (10 * acc + (d - 48)) r' else None
      | [] => None
      end
    else None
  end.

Definition int_unsigned (s : text) : option Z :=
  match s with
  | c :: r => if isdigit c then int_digits (c - 48) r else None
  | [] => None
  end.

(** [Py_ISSPACE]: the whitespace of the C locale. *)
Definition c_isspace (c : Z) : bool := between 9 13 c || (c =? 32).

Fixpoint c_lstrip (s : text) : text :=
  match s with
  | c :: r => if c_isspace c then c_lstrip r else s
  | [] => []
  end.

Fixpoint c_rstrip (s : text) : text :=
  match s with
  | [] => []
  | c :: r =>
    match c_rstrip r with
    | [] => if c_isspace c then [] else [c]
    | r' => c :: r'
    end
  end.

(** [PyLong_FromString] on the ASCII buffer. *)
Definition int_of_ascii (s : text) : option Z :=
  match c_rstrip (c_lstrip s) with
  | 45 :: r => Z.opp <$> int_unsigned r
  | 43 :: r => int_unsigned r
  | r => int_unsigned r
  end.

(** [PyUnicode_IS_ASCII] *)
Definition isascii (s : text) : bool := forallb (fun c => c <? 128) s.

Section Int.

(** [Py_UNICODE_TODECIMAL] of the interpreter's Unicode database: the
    value of a decimal digit, [None] for any other character.  It is read
    for characters from 127 on only. *)
Variable unicode_decimal : Z -> option Z.

(** The loop of [_PyUnicode_TransformDecimalAndSpaceToASCII]. *)
Fixpoint to_ascii (s : text) : text :=
  match s with
  | [] => []
  | ch :: r =>
    if ch <? 127 then ch :: to_ascii r
    else if isspace ch then 32 :: to_ascii r
    else match unicode_decimal ch with
         | Some d => (48 + d) :: to_ascii r
         | None => [63]
         end
  end.

Definition py_int (s : text) : option Z :=
  int_of_ascii (if isascii s then s else to_ascii s).

End Int.

(** ** Addresses and [recvfrom] *)

(** An [AF_INET] address as [recvfrom] returns it: host and port. *)
Definition address : Type := (string * Z)%type.

(** What one call of [sock.recvfrom(1024)] does while the loop runs: the
    0.5 s timeout expires, a datagram arrives, or the call raises another
    exception. *)
Inductive recv_event : Type :=
| RecvTimeout
| RecvDatagram (data : bytes) (addr : address)
| RecvError.

(** The buffer size given to [recvfrom]: a longer datagram is cut (on a
    system that refuses it instead, the call is a [RecvError]). *)
Definition bufsize : nat := 1024.

(** A datagram that left through [sendto]. *)
Definition sent : Type := (bytes * address)%type.

(** What one [sendto] of a listener does: the datagram leaves, the call
    raises [socket.timeout], or it raises another exception. *)
Inductive send_result : Type := Sent | TimedOut | Failed.

(** The network as a listener sees it during one pass through its loop:
    the fate of the [sendto] of each payload to each address. *)
Definition reply_net : Type := bytes -> address -> send_result.

(** The datagrams a [sendto] puts on the wire when its exception, if any,
    is caught without further effect. *)
Definition delivered (net : reply_net) (data : bytes) (addr : address)
    : list sent :=
  match net data addr with
  | Sent => [(data, addr)]
  | _ => []
  end.

(** How one pass through a loop body ends: the loop goes on, it is left
    through [break], or an exception leaves it. *)
Inductive flow : Type := Next | Break | Raise.

(** ** [listen_for_clients] *)

Definition REGISTER : text := str "REGISTER".
Definition UNREGISTER : text := str "UNREGISTER".
Definition REGISTERED : bytes := lit "REGISTERED".

(** The body of the [try] once [recvfrom] has returned and the data is
    decoded (lines 81-88), with the handlers of lines 90-95 for the
    [sendto]: the address is added before the reply is sent, a timeout of
    the [sendto] goes on to the next pass, any other exception leaves the
    loop. *)
Definition handle_registration (net : reply_net) (clients : gset address)
    (message : text) (addr : address) : gset address * list sent * flow :=
  if bool_decide (addr ∉ clients) && bool_decide (message = REGISTER)
  then
    match net REGISTERED addr with
    | Sent => ({[addr]} ∪ clients, [(REGISTERED, addr)], Next)
    | TimedOut => ({[addr]} ∪ clients, [], Next)
    | Failed => ({[addr]} ∪ clients, [], Break)
    end
  else if bool_decide (message = UNREGISTER) && bool_decide (addr ∈ clients)
  then (clients ∖ {[addr]}, [], Next)
  else (clients, [], Next).

(** One pass through the [while] body (lines 77-95). *)
Definition listen_for_clients_iter (net : reply_net) (clients : gset address)
    (ev : recv_event) : gset address * list sent * flow :=
  match ev with
  | RecvTimeout => (clients, [], Next)
  | RecvError => (clients, [], Break)
  | RecvDatagram data addr =>
    match utf8_decode (take bufsize data) with
    | None => (clients, [], Break)
    | Some message => handle_registration net clients message addr
    end
  end.

(** The loop, over the outcomes of the successive [recvfrom] calls made
    while [self.running] holds, each with the network of that pass.  The
    flow is [Break] when the loop was left through [break], and then the
    remaining events are never received. *)
Fixpoint listen_for_clients (clients : gset address)
    (evs : list (reply_net * recv_event)) : gset address * list sent * flow :=
  match evs with
  | [] => (clients, [], Next)
  | (net, ev) :: rest =>
    match listen_for_clients_iter net clients ev with
    | (clients', out, Next) =>
      let '(clients'', out', fl) := listen_for_clients clients' rest in
      (clients'', out ++ out', fl)
    | r => r
    end
  end.

(** ** [listen_for_controls] *)

Section Controls.

(** Python's [float] type and the two operations the intensity command
    applies to it: [float(s)] ([None] for [ValueError]) and
    [max(0.0, min(1.0, x))]. *)
Variable float : Type.
Variable py_float : text -> option float.
Variable clamp_unit : float -> float.

(** The table [int] reads decimal digits from. *)
Variable unicode_decimal : Z -> option Z.

(** The blush settings of [self] (lines 50-52). *)
Record settings : Type := Settings {
  blush_color_rgb : Z * Z * Z;
  blush_intensity : float;
  blush_blur : Z
}.

(** [r, g, b = map(int, command.split(":")[1].split(","))]; [None] when
    any step raises. *)
Definition parse_color (command : text) : option (Z * Z * Z) :=
  rgb_str ← split colon command !! 1%nat;
  match split comma rgb_str with
  | [fr; fg; fb] =>
    r ← py_int unicode_decimal fr; g ← py_int unicode_decimal fg;
    b ← py_int unicode_decimal fb; Some (r, g, b)
  | _ => None
  end.

(** [max(0.0, min(1.0, float(command.split(":")[1])))] *)
Definition parse_intensity (command : text) : option float :=
  arg ← split colon command !! 1%nat;
  clamp_unit <$> py_float arg.

(** [max(5, min(50, int(command.split(":")[1])))] *)
Definition parse_blur (command : text) : option Z :=
  arg ← split colon command !! 1%nat;
  (fun blur => Z.max 5 (Z.min 50 blur)) <$> py_int unicode_decimal arg.

(** The end of each of the three inner [try] blocks.  When the parsing
    went through, the new settings are stored and the OK token is sent; if
    that [sendto] raises, or if the parsing raised, the handler sends the
    error token, and an exception of this second [sendto] is caught by the
    handlers of the loop (lines 144-148). *)
Definition answer (net : reply_net) (st : settings) (stored : option settings)
    (ok error : bytes) (addr : address) : settings * list sent :=
  match stored with
  | Some st' =>
    match net ok addr with
    | Sent => (st', [(ok, addr)])
    | _ => (st', delivered net error addr)
    end
  | None => (st, delivered net error addr)
  end.

(** The dispatch on the stripped command (lines 105-142). *)
Definition handle_command (net : reply_net) (st : settings) (command : text)
    (addr : address) : settings * list sent :=
  if startswith command (str "COLOR:") then
    answer net st
      ((fun rgb => Settings rgb (blush_intensity st) (blush_blur st))
         <$> parse_color command)
      (lit "COLOR_OK") (lit "COLOR_ERROR") addr
  else if startswith command (str "INTENSITY:") then
    answer net st
      ((fun intensity => Settings (blush_color_rgb st) intensity (blush_blur st))
         <$> parse_intensity command)
      (lit "INTENSITY_OK") (lit "INTENSITY_ERROR") addr
  else if startswith command (str "BLUR:") then
    answer net st
      ((fun blur => Settings (blush_color_rgb st) (blush_intensity st) blur)
         <$> parse_blur command)
      (lit "BLUR_OK") (lit "BLUR_ERROR") addr
  else (st, []).

(** One pass through the [while] body (lines 101-148): no handler of
    this loop leaves it. *)
Definition listen_for_controls_iter (net : reply_net) (st : settings)
    (ev : recv_event) : settings * list sent * flow :=
  match ev with
  | RecvTimeout => (st, [], Next)
  | RecvError => (st, [], Next)
  | RecvDatagram data addr =>
    match utf8_decode (take bufsize data) with
    | None => (st, [], Next)
    | Some decoded =>
      let '(st', out) := handle_command net st (strip decoded) addr in
      (st', out, Next)
    end
  end.

Fixpoint listen_for_controls (st : settings)
    (evs : list (reply_net * recv_event)) : settings * list sent * flow :=
  match evs with
  | [] => (st, [], Next)
  | (net, ev) :: rest =>
    match listen_for_controls_iter net st ev with
    | (st', out, Next) =>
      let '(st'', out', fl) := listen_for_controls st' rest in
      (st'', out ++ out', fl)
    | r => r
    end
  end.

End Controls.

Arguments Settings {float} _ _ _.
Arguments blush_color_rgb {float} _.
Arguments blush_intensity {float} _.
Arguments blush_blur {float} _.
Arguments answer {float} _ _ _ _ _ _.
Arguments handle_command {float} _ _ _ _ _ _ _.
Arguments listen_for_controls_iter {float} _ _ _ _ _ _.
Arguments listen_for_controls {float} _ _ _ _ _.

(** ** [send_frames] *)

(** The part of [self] the broadcast loop reads and writes. *)
Record server : Type := Server {
  clients : gset address;
  sequence_number : Z;
  max_packet_size : Z
}.

(** One 32-bit field of [struct.pack("!III", ...)]: most significant byte
    first. *)
Definition be32 (v : Z) : bytes :=
  [byte_of_Z (Z.shiftr v 24); byte_of_Z (Z.shiftr v 16);
   byte_of_Z (Z.shiftr v 8); byte_of_Z v].

(** [struct.pack] raises [struct.error] ([None]) for an argument of format
    [I] outside [0, 2^32 - 1]. *)
Definition pack_I (v : Z) : option bytes :=
  if between 0 4294967295 v then Some (be32 v) else None.

Definition struct_pack_III (a b c : Z) : option bytes :=
  x ← pack_I a; y ← pack_I b; z ← pack_I c; Some (x ++ y ++ z).

(** The value a receiver reads back from four bytes in network order. *)
Definition u32_of_be (b : bytes) : Z :=
  fold_left (fun acc x => acc * 256 + byte_val x) b 0.

(** An index of a slice, clamped the way Python does. *)
Definition slice_index (len i : Z) : Z :=
  if i <? 0 then Z.max 0 (i + len) else Z.min i len.

(** [l[i:j]] *)
Definition py_slice {A : Type} (l : list A) (i j : Z) : list A :=
  let len := Z.of_nat (length l) in
  let i' := slice_index len i in
  let j' := slice_index len j in
  take (Z.to_nat (j' - i')) (drop (Z.to_nat i') l).

(** [math.ceil(a / b)] on two integers; [None] is [ZeroDivisionError].
    The quotient is taken exactly: the double the source computes has the
    same ceiling for every [a] below 2^53, which the size of a buffer in
    memory always is. *)
Definition ceil_div (a b : Z) : option Z :=
  if b =? 0 then None else Some (- ((- a) / b)).

Definition header_size : Z := 12.

(** The payload slice of one packet (lines 296, 297 and 300). *)
Definition chunk (frame_data : bytes) (payload_size packet_index : Z) : bytes :=
  let frame_size := Z.of_nat (length frame_data) in
  let start_pos := packet_index * payload_size in
  let end_pos := Z.min (start_pos + payload_size) frame_size in
  py_slice frame_data start_pos end_pos.

(** Lines 296-300: [None] when [struct.pack] raises. *)
Definition udp_packet (seq total_packets : Z) (frame_data : bytes)
    (payload_size packet_index : Z) : option bytes :=
  header ← struct_pack_III seq total_packets packet_index;
  Some (header ++ chunk frame_data payload_size packet_index).

(** The network during one frame: [fails a i] holds when the [sendto] of
    packet [i] to [a] raises [socket.error]. *)
Definition network : Type := address -> Z -> bool.

(** The inner [for] (lines 295-302) over the indices left to send.  The
    flag tells whether an exception left the loop. *)
Fixpoint send_packets (fails : network) (seq total_packets : Z)
    (frame_data : bytes) (payload_size : Z) (client_addr : address)
    (indices : list Z) : list sent * bool :=
  match indices with
  | [] => ([], false)
  | packet_index :: rest =>
    match udp_packet seq total_packets frame_data payload_size packet_index with
    | None => ([], true)
    | Some udp =>
      if fails client_addr packet_index then ([], true)
      else
        let '(out, raised) :=
          send_packets fails seq total_packets frame_data payload_size
                       client_addr rest in
        ((udp, client_addr) :: out, raised)
    end
  end.

(** [range(total_packets)] *)
Definition py_range (n : Z) : list Z := seqZ 0 n.

(** The outer [for] over the snapshot (lines 293-312): either handler
    discards the address from [self.clients]. *)
Fixpoint fan_out (fails : network) (seq total_packets : Z)
    (frame_data : bytes) (payload_size : Z) (current_clients : list address)
    (registry : gset address) : gset address * list sent :=
  match current_clients with
  | [] => (registry, [])
  | client_addr :: rest =>
    let '(out, raised) :=
      send_packets fails seq total_packets frame_data payload_size
                   client_addr (py_range total_packets) in
    let registry' := if raised then registry ∖ {[client_addr]} else registry in
    let '(registry'', out') :=
      fan_out fails seq total_packets frame_data payload_size rest registry' in
    (registry'', out ++ out')
  end.

(** What the capture and encoding stages give one iteration:
    [camera.read()] returned no frame, [cv2.imencode] reported failure, or
    the encoded bytes. *)
Inductive capture : Type :=
| Dropped
| EncodeFailed
| Encoded (frame_data : bytes).

(** One pass through the [while] body of [send_frames] (lines 263-318).
    The snapshot [self.clients.copy()] is walked in the order of
    [elements].  [Raise] is an exception that no handler of the loop
    catches. *)
Definition send_frames_iter (fails : network) (s : server) (c : capture)
    : server * list sent * flow :=
  match c with
  | Dropped => (s, [], Next)
  | EncodeFailed => (s, [], Next)
  | Encoded frame_data =>
    let frame_size := Z.of_nat (length frame_data) in
    let seq := sequence_number s + 1 in
    let payload_size := max_packet_size s - header_size in
    match ceil_div frame_size payload_size with
    | None => (Server (clients s) seq (max_packet_size s), [], Raise)
    | Some total_packets =>
      let '(registry, out) :=
        fan_out fails seq total_packets frame_data payload_size
                (elements (clients s)) (clients s) in
      (Server registry seq (max_packet_size s), out, Next)
    end
  end.

(** The loop over the successive iterations made while [self.running]
    holds. *)
Fixpoint send_frames (s : server) (its : list (network * capture))
    : server * list sent * flow :=
  match its with
  | [] => (s, [], Next)
  | (fails, c) :: rest =>
    match send_frames_iter fails s c with
    | (s', out, Next) =>
      let '(s'', out', fl) := send_frames s' rest in
      (s'', out ++ out', fl)
    | r => r
    end
  end.

(** ** [get_cheek_contour_points] *)

(** The landmark indices of the two cheeks (lines 156-171). *)
Definition left_cheek_indices : list Z :=
  [116; 117; 118; 119; 100; 47; 126; 209; 50; 101; 205; 187].

Definition right_cheek_indices : list Z :=
  [345; 346; 347; 348; 329; 277; 355; 429; 280; 330; 425; 411].

(** The exceptions that can leave the function. *)
Inductive contour_error : Type :=
| IndexError
| ConversionError
| ArrayError.

(** The range of [np.int32]. *)
Definition int32 (v : Z) : bool := between (-2147483648) 2147483647 v.

Section Contour.

(** A landmark of the face mesh and the pixel it is mapped to,
    [(int(lm.x * w), int(lm.y * h))]: floating point, kept abstract;
    [None] when an [int] raises, as it does on a NaN or an infinity. *)
Variable landmark : Type.
Variable pixel : landmark -> Z -> Z -> option (Z * Z).

(** The loop of lines 173-177 over the indices left. *)
Fixpoint contour_points (landmarks : list landmark) (w h : Z)
    (indices : list Z) : contour_error + list (Z * Z) :=
  match indices with
  | [] => inr []
  | idx :: rest =>
    if idx <? Z.of_nat (length landmarks) then
      match landmarks !! Z.to_nat idx with
      | None => inl IndexError
      | Some lm =>
        match pixel lm w h with
        | None => inl ConversionError
        | Some p =>
          match contour_points landmarks w h rest with
          | inr points => inr (p :: points)
          | inl e => inl e
          end
        end
      end
    else contour_points landmarks w h rest
  end.

(** Lines 154-179.  [np.array(points, dtype=np.int32)] refuses a
    coordinate outside the range of the type. *)
Definition get_cheek_contour_points (landmarks : list landmark) (w h : Z)
    (is_left : bool) : contour_error + list (Z * Z) :=
  match contour_points landmarks w h
          (if is_left then left_cheek_indices else right_cheek_indices) with
  | inr points =>
    if forallb (fun p : Z * Z => int32 p.1 && int32 p.2) points
    then inr points else inl ArrayError
  | inl e => inl e
  end.

End Contour.

Arguments contour_points {landmark} _ _ _ _ _.
Arguments get_cheek_contour_points {landmark} _ _ _ _ _.

(** ** [start_server], [stop_server] and the main block *)

Module Lifecycle.

(** A socket object: created, bound, or closed. *)
Inductive socket_state : Type := Fresh | Bound | Closed.

(** A [cv2.VideoCapture] object: opened, not opened, or released. *)
Inductive capture_state : Type := Opened | Unopened | Released.

Inductive resource : Type :=
| Socket (st : socket_state)
| Camera (st : capture_state).

(** The attributes of [self] the life cycle touches.  [dropped] lists the
    objects no attribute refers to any more, in the state they were left
    in. *)
Record handles : Type := Handles {
  running : bool;
  server_socket : option socket_state;
  control_socket : option socket_state;
  camera : option capture_state;
  sequence_number : Z;
  dropped : list resource
}.

(** The state [__init__] builds (lines 22-27). *)
Definition initial : handles := Handles false None None None 0 [].

(** An attribute is given a new value: the object it held is dropped. *)
Definition forget {A : Type} (wrap : A -> resource) (old : option A)
    (l : list resource) : list resource :=
  match old with
  | Some st => wrap st :: l
  | None => l
  end.

(** Lines 359-374: each attribute that holds an object has it closed, or
    released, and is set to [None]. *)
Definition stop_server (h : handles) : handles :=
  Handles false None None None (sequence_number h)
    (forget Camera ((fun _ => Released) <$> camera h)
       (forget Socket ((fun _ => Closed) <$> control_socket h)
          (forget Socket ((fun _ => Closed) <$> server_socket h)
             (dropped h)))).

(** How [send_frames] comes back to [start_server]. *)
Inductive broadcast_end : Type :=
| LoopLeft
| KeyboardInterrupt
| OtherException.

(** What the calls of one [start_server] do: whether each [bind]
    succeeds, whether the camera opens, how the broadcast ends and with
    which sequence number. *)
Record environment : Type := Environment {
  bind_server : bool;
  bind_control : bool;
  camera_opens : bool;
  broadcast : broadcast_end;
  last_sequence : Z
}.

Inductive outcome : Type := Returned | Raised.

(** Lines 320-357. *)
Definition start_server (env : environment) (h : handles)
    : handles * outcome :=
  if running h then (h, Returned)
  else
    let d1 := forget Socket (server_socket h) (dropped h) in
    if negb (bind_server env) then
      (Handles false (Some Fresh) (control_socket h) (camera h)
               (sequence_number h) d1, Raised)
    else
      let d2 := forget Socket (control_socket h) d1 in
      if negb (bind_control env) then
        (Handles false (Some Bound) (Some Fresh) (camera h)
                 (sequence_number h) d2, Raised)
      else
        let d3 := forget Camera (camera h) d2 in
        if negb (camera_opens env) then
          (Handles false (Some Closed) (Some Closed) (Some Unopened)
                   (sequence_number h) d3, Returned)
        else
          let after := Handles true (Some Bound) (Some Bound) (Some Opened)
                               (last_sequence env) d3 in
          match broadcast env with
          | LoopLeft | KeyboardInterrupt => (stop_server after, Returned)
          | OtherException => (stop_server after, Raised)
          end.

(** Lines 376-384: a new server is started, and stopped when
    [start_server] raises an [Exception]. *)
Definition main (env : environment) : handles :=
  match start_server env initial with
  | (h, Returned) => h
  | (h, Raised) => stop_server h
  end.

Definition is_open (r : resource) : bool :=
  match r with
  | Socket Fresh | Socket Bound | Camera Opened => true
  | _ => false
  end.

(** The objects of a state, referred to or dropped, that are open. *)
Definition open_resources (h : handles) : list resource :=
  filter (fun r => is_open r = true)
    (forget Socket (server_socket h)
       (forget Socket (control_socket h)
          (forget Camera (camera h) (dropped h)))).

End Lifecycle.

(** ** Vocabulary of the statements *)

(** A text made of whitespace only. *)
Definition spaces (s : text) : Prop := Forall (fun c => isspace c = true) s.

(** The characters [int] reads: digits and underscores after the sign. *)
Definition int_char (c : Z) : Prop := isdigit c = true \/ c = 95.

(** A value that fits the format [I] of [struct.pack]. *)
Definition u32 (v : Z) : Prop := 0 <= v < 4294967296.

(** A datagram of the frame channel with its three header fields. *)
Definition datagram (seq total_packets : Z) (frame_data : bytes)
    (payload_size packet_index : Z) : bytes :=
  be32 seq ++ be32 total_packets ++ be32 packet_index
  ++ chunk frame_data payload_size packet_index.

(** The payloads handed to [sendto] for one address, in sending order. *)
Definition sent_to (a : address) (out : list sent) : list bytes :=
  fst <$> filter (fun x => x.2 = a) out.

(** The number of iterations of a run that had an encoded frame. *)
Fixpoint encoded_frames (its : list (network * capture)) : Z :=
  match its with
  | [] => 0
  | (_, Encoded _) :: rest => 1 + encoded_frames rest
  | _ :: rest => encoded_frames rest
  end.

(** The flow after the [sendto] of the registration listener. *)
Definition after_send (r : send_result) : flow :=
  match r with
  | Failed => Break
  | _ => Next
  end.

(** The addresses the datagrams of a run came from. *)
Fixpoint senders (evs : list recv_event) : list address :=
  match evs with
  | [] => []
  | RecvDatagram _ addr :: rest => addr :: senders rest
  | _ :: rest => senders rest
  end.

(** The tokens the control listener answers with. *)
Definition control_tokens : list bytes :=
  [lit "COLOR_OK"; lit "COLOR_ERROR"; lit "INTENSITY_OK";
   lit "INTENSITY_ERROR"; lit "BLUR_OK"; lit "BLUR_ERROR"].

(** The number of characters of a text equal to [c]. *)
Definition occurrences (c : Z) (s : list Z) : nat :=
  length (filter (fun d => d = c) s).

(** ** Sample values *)

Definition a0 : address := ("127.0.0.1"%string, 5000).
Definition a1 : address := ("127.0.0.1"%string, 5001).

(** A network on which every [sendto] succeeds. *)
Definition reliable : network := fun _ _ => false.

(** The settings [__init__] installs, for a trivial model of [float]. *)
Definition initial_settings : settings unit := Settings (235, 148, 146) tt 15.

Definition no_float : text -> option unit := fun _ => None.

(** A part of the table of decimal digits: the Arabic-Indic and the
    fullwidth digits. *)
Definition some_decimals : Z -> option Z :=
  fun c => if between 1632 1641 c then Some (c - 1632)
           else if between 65296 65305 c then Some (c - 65296)
           else None.

(** A network that takes every reply, and one that takes none. *)
Definition delivering : reply_net := fun _ _ => Sent.
Definition refusing : reply_net := fun _ _ => Failed.

(** A network on which the [sendto] of the payload [tok] raises, and that
    takes every other payload. *)
Definition refusing_only (tok : bytes) : reply_net :=
  fun data _ =>
    if bool_decide (Byte.to_N <$> data = Byte.to_N <$> tok) then Failed
    else Sent.

(** Landmarks with coordinates in thousandths, and the pixel of such a
    landmark in an image of [w] by [h]. *)
Definition scaled_pixel : Z * Z -> Z -> Z -> option (Z * Z) :=
  fun lm w h => Some (Z.quot (lm.1 * w) 1000, Z.quot (lm.2 * h) 1000).

(** A network on which the second packet sent to [a0] fails. *)
Definition a0_fails_at_1 : network :=
  fun a i => bool_decide (a = a0) && (i =? 1).

(** * Properties *)

(** ** Text *)

Lemma lstrip_spaces s : spaces s -> lstrip s = [].
Proof. induction 1 as [|c r Hc _ IH]; simpl; [done | by rewrite Hc]. Qed.

Lemma lstrip_nil_spaces s : lstrip s = [] -> spaces s.
Proof.
  induction s as [|c r IH]; simpl; [constructor |].
  destruct (isspace c) eqn:Hc; [| discriminate].
  intros H. constructor; [exact Hc | by apply IH].
Qed.

Lemma lstrip_app_spaces ws s : spaces ws -> lstrip (ws ++ s) = lstrip s.
Proof. induction 1 as [|c r Hc _ IH]; simpl; [done | by rewrite Hc]. Qed.

Lemma lstrip_app s t : lstrip s <> [] -> lstrip (s ++ t) = lstrip s ++ t.
Proof.
  induction s as [|c r IH]; simpl; [done |].
  destruct (isspace c); auto.
Qed.

Lemma rstrip_spaces s : spaces s -> rstrip s = [].
Proof. induction 1 as [|c r Hc _ IH]; simpl; [done | by rewrite IH, Hc]. Qed.

Lemma rstrip_app_spaces s ws : spaces ws -> rstrip (s ++ ws) = rstrip s.
Proof.
  intros H. induction s as [|c r IH]; simpl.
  - by apply rstrip_spaces.
  - by rewrite IH.
Qed.

Lemma strip_spaces_around ws1 t ws2 :
  spaces ws1 -> spaces ws2 -> strip (ws1 ++ t ++ ws2) = strip t.
Proof.
  intros H1 H2. unfold strip. rewrite lstrip_app_spaces by done.
  destruct (lstrip t) as [|c r] eqn:Ht.
  - rewrite lstrip_spaces; [done |].
    apply Forall_app; split; [by apply lstrip_nil_spaces | done].
  - rewrite lstrip_app by (rewrite Ht; discriminate).
    rewrite Ht. by apply rstrip_app_spaces.
Qed.

Lemma elem_of_lstrip c s : c ∈ s -> isspace c = false -> c ∈ lstrip s.
Proof.
  induction s as [|d r IH]; simpl; [done |].
  intros Hin Hc. destruct (isspace d) eqn:Hd; [| done].
  apply elem_of_cons in Hin as [-> | Hin]; [congruence | auto].
Qed.

Lemma elem_of_rstrip c s : c ∈ s -> isspace c = false -> c ∈ rstrip s.
Proof.
  induction s as [|d r IH]; simpl; [done |].
  intros Hin Hc. apply elem_of_cons in Hin as [-> | Hin].
  - destruct (rstrip r); [rewrite Hc |]; apply elem_of_cons; by left.
  - specialize (IH Hin Hc). destruct (rstrip r) as [|e r'] eqn:Hr.
    + by apply elem_of_nil in IH.
    + apply elem_of_cons; by right.
Qed.

Lemma elem_of_strip c s : c ∈ s -> isspace c = false -> c ∈ strip s.
Proof.
  intros Hin Hc. unfold strip. apply elem_of_rstrip; [| done].
  by apply elem_of_lstrip.
Qed.

Lemma split_no_sep sep s : sep ∉ s -> split sep s = [s].
Proof.
  induction s as [|c r IH]; simpl; [done |].
  intros H. apply not_elem_of_cons in H as [Hc Hr].
  destruct (Z.eqb_spec c sep); [congruence |]. by rewrite IH.
Qed.

Lemma split_app_sep sep s t :
  sep ∉ s -> split sep (s ++ sep :: t) = s :: split sep t.
Proof.
  induction s as [|c r IH]; simpl; intros H.
  - by rewrite Z.eqb_refl.
  - apply not_elem_of_cons in H as [Hc Hr].
    destruct (Z.eqb_spec c sep); [congruence |]. by rewrite IH.
Qed.

Lemma int_digits_chars n : forall s acc z,
  (length s <= n)%nat -> int_digits acc s = Some z -> Forall int_char s.
Proof.
  induction n as [|n IH]; intros [|c r] acc z Hlen; simpl in *;
    try (intros; constructor; fail); try lia.
  destruct (isdigit c) eqn:Hc.
  - intros H. constructor; [by left |]. eapply IH; [| exact H]. lia.
  - destruct (Z.eqb_spec c 95) as [-> |]; [| discriminate].
    destruct r as [|d r']; [discriminate |].
    destruct (isdigit d) eqn:Hd; [| discriminate].
    intros H. constructor; [by right |]. constructor; [by left |].
    eapply IH; [| exact H]. simpl in Hlen. lia.
Qed.

Lemma int_unsigned_chars s z : int_unsigned s = Some z -> Forall int_char s.
Proof.
  destruct s as [|c r]; simpl; [discriminate |].
  destruct (isdigit c) eqn:Hc; [| discriminate].
  intros H. constructor; [by left |]. by eapply int_digits_chars.
Qed.

Lemma elem_of_c_lstrip c s : c ∈ s -> c_isspace c = false -> c ∈ c_lstrip s.
Proof.
  induction s as [|d r IH]; simpl; [done |].
  intros Hin Hc. destruct (c_isspace d) eqn:Hd; [| done].
  apply elem_of_cons in Hin as [-> | Hin]; [congruence | auto].
Qed.

Lemma elem_of_c_rstrip c s : c ∈ s -> c_isspace c = false -> c ∈ c_rstrip s.
Proof.
  induction s as [|d r IH]; simpl; [done |].
  intros Hin Hc. apply elem_of_cons in Hin as [-> | Hin].
  - destruct (c_rstrip r); [rewrite Hc |]; apply elem_of_cons; by left.
  - specialize (IH Hin Hc). destruct (c_rstrip r) as [|e r'] eqn:Hr.
    + by apply elem_of_nil in IH.
    + apply elem_of_cons; by right.
Qed.

(** What a text [PyLong_FromString] accepts is made of. *)
Lemma int_of_ascii_chars s z c :
  int_of_ascii s = Some z -> c ∈ s ->
  c_isspace c = true \/ int_char c \/ c = 45 \/ c = 43.
Proof.
  unfold int_of_ascii. intros H Hin.
  destruct (c_isspace c) eqn:Hs; [by left | right].
  assert (c ∈ c_rstrip (c_lstrip s)) as Hin'
    by (apply elem_of_c_rstrip; [by apply elem_of_c_lstrip | done]).
  assert (forall r y, int_unsigned r = Some y -> c ∈ r ->
            int_char c \/ c = 45 \/ c = 43) as Hu.
  { intros r y Hr Hc. left.
    pose proof (int_unsigned_chars r y Hr) as Hall.
    rewrite Forall_forall in Hall. by apply Hall. }
  destruct (c_rstrip (c_lstrip s)) as [|d r]; [discriminate |].
  destruct (Z.eqb_spec d 45) as [-> |]; [| destruct (Z.eqb_spec d 43) as [-> |]].
  - destruct (int_unsigned r) eqn:Hr; [| discriminate].
    apply elem_of_cons in Hin' as [-> | Hin']; [auto | eauto].
  - apply elem_of_cons in Hin' as [-> | Hin']; [auto | eauto].
  - assert (int_unsigned (d :: r) = Some z) as Hr.
    { destruct d as [|q|q]; try exact H.
      do 8 (destruct q as [q|q|]; try exact H; try congruence). }
    eauto.
Qed.

Lemma to_ascii_keeps unicode_decimal c s :
  c < 127 -> c ∈ s ->
  c ∈ to_ascii unicode_decimal s \/ 63 ∈ to_ascii unicode_decimal s.
Proof.
  intros Hc. induction s as [|ch r IH]; [by intros ?%elem_of_nil |].
  intros Hin. simpl.
  destruct (Z.ltb_spec ch 127) as [Hlt | Hge].
  - apply elem_of_cons in Hin as [-> | Hin]; [left; left |].
    destruct (IH Hin); [left | right]; by right.
  - apply elem_of_cons in Hin as [-> | Hin]; [lia |].
    destruct (isspace ch).
    + destruct (IH Hin); [left | right]; by right.
    + destruct (unicode_decimal ch).
      * destruct (IH Hin); [left | right]; by right.
      * right. left.
Qed.

(** A text [int] accepts has no colon and no comma. *)
Lemma py_int_no_separator unicode_decimal s z c :
  py_int unicode_decimal s = Some z -> c = colon \/ c = comma -> c ∉ s.
Proof.
  unfold py_int. intros H Hc Hin.
  assert (forall t, int_of_ascii t = Some z -> c ∈ t \/ 63 ∈ t -> False) as Hno.
  { intros t Ht [Hx | Hx];
      destruct (int_of_ascii_chars t z _ Ht Hx) as [Hs | [[Hd | He] | [He | He]]];
      destruct Hc as [-> | ->]; try discriminate. }
  destruct (isascii s).
  - apply (Hno s H). by left.
  - apply (Hno _ H). apply to_ascii_keeps; [| done].
    destruct Hc as [-> | ->]; reflexivity.
Qed.

(** ** Registration listener *)

Lemma decode_REGISTER :
  utf8_decode (take bufsize (lit "REGISTER")) = Some REGISTER.
Proof. reflexivity. Qed.

Lemma handle_registration_known (net : reply_net) (cs : gset address)
    (message : text) (a : address) :
  a ∈ cs -> message <> UNREGISTER ->
  handle_registration net cs message a = (cs, [], Next).
Proof.
  intros Hin Hne. unfold handle_registration.
  rewrite (bool_decide_eq_false_2 (a ∉ cs)) by auto.
  rewrite (bool_decide_eq_false_2 (message = UNREGISTER)) by done.
  done.
Qed.

Lemma handle_registration_new (net : reply_net) (cs : gset address)
    (a : address) :
  a ∉ cs ->
  handle_registration net cs REGISTER a
  = ({[a]} ∪ cs, delivered net REGISTERED a, after_send (net REGISTERED a)).
Proof.
  intros Hin. unfold handle_registration, delivered.
  rewrite (bool_decide_eq_true_2 (a ∉ cs)) by done.
  rewrite (bool_decide_eq_true_2 (REGISTER = REGISTER)) by done.
  by destruct (net REGISTERED a).
Qed.

Lemma handle_registration_other (net : reply_net) (cs : gset address)
    (message : text) (a : address) :
  message <> REGISTER -> message <> UNREGISTER ->
  handle_registration net cs message a = (cs, [], Next).
Proof.
  intros H1 H2. unfold handle_registration.
  rewrite (bool_decide_eq_false_2 (message = REGISTER)) by done.
  rewrite (bool_decide_eq_false_2 (message = UNREGISTER)) by done.
  by rewrite andb_false_r.
Qed.

Lemma length_delivered (net : reply_net) data a : (length (delivered net data a) <= 1)%nat.
Proof. unfold delivered. destruct (net data a); simpl; lia. Qed.

Lemma filter_eq_length_NoDup (a : address) (l : list address) :
  NoDup l -> a ∈ l -> length (filter (fun x => x = a) l) = 1%nat.
Proof.
  induction 1 as [|x l Hx Hnd IH]; intros Hin; [by apply elem_of_nil in Hin |].
  rewrite filter_cons. destruct (decide (x = a)) as [-> | Hne].
  - simpl. f_equal. apply length_zero_iff_nil.
    destruct (filter (fun x => x = a) l) as [|y r] eqn:Hf; [done |].
    assert (y ∈ filter (fun x => x = a) l) as Hy by (rewrite Hf; left).
    apply list_elem_of_filter in Hy as [-> Hy]. done.
  - apply elem_of_cons in Hin as [-> | Hin]; [done | auto].
Qed.

(** C3 (as the code has it): a REGISTER from an address that is already
    registered leaves the registry as it is, with one entry for the
    address, and is not answered; the [sendto] of REGISTERED is made only
    for the REGISTER that adds the address, and the datagram leaves when
    that [sendto] succeeds, so two REGISTERs in a row from one address
    produce at most one reply. *)
Theorem register_again_not_answered (net1 net2 : reply_net)
    (cs : gset address) (a : address) :
  let ev := RecvDatagram (lit "REGISTER") a in
  let '(cs1, out1, fl1) := listen_for_clients_iter net1 cs ev in
  let '(cs2, out2, fl2) := listen_for_clients_iter net2 cs1 ev in
  cs1 = {[a]} ∪ cs /\ cs2 = cs1 /\
  length (filter (fun x => x = a) (elements cs2)) = 1%nat /\
  out1 = (if bool_decide (a ∈ cs) then []
          else delivered net1 REGISTERED a) /\
  fl1 = (if bool_decide (a ∈ cs) then Next
         else after_send (net1 REGISTERED a)) /\
  out2 = [] /\ fl2 = Next /\
  (length (out1 ++ out2) <= 1)%nat.
Proof.
  cbv zeta. unfold listen_for_clients_iter. rewrite decode_REGISTER.
  assert (REGISTER <> UNREGISTER) as Hne by discriminate.
  assert (forall s : gset address, a ∈ s ->
            length (filter (fun x => x = a) (elements s)) = 1%nat) as Hone.
  { intros s Hs. apply filter_eq_length_NoDup; [apply NoDup_elements |].
    by apply elem_of_elements. }
  destruct (decide (a ∈ cs)) as [Hin | Hout].
  - rewrite handle_registration_known by done.
    rewrite handle_registration_known by done.
    rewrite bool_decide_eq_true_2 by done.
    repeat split; auto. set_solver.
  - rewrite handle_registration_new by done.
    rewrite handle_registration_known by (done || set_solver).
    rewrite bool_decide_eq_false_2 by done.
    repeat split; auto.
    + apply Hone. set_solver.
    + rewrite app_nil_r. apply length_delivered.
Qed.

(** C3, the claim as the spec states it fails: the second REGISTER of a
    registered address gets no REGISTERED reply, on a network that would
    take it. *)
Lemma register_again_counterexample :
  (a0 ∈ ({[a0]} : gset address)) /\
  listen_for_clients_iter delivering {[a0]} (RecvDatagram (lit "REGISTER") a0)
  = ({[a0]}, [], Next).
Proof. split; [set_solver | by vm_compute]. Qed.

(** C4 (where the code departs from the claim): a datagram that is not
    valid UTF-8 makes [listen_for_clients] leave its loop, so the REGISTER
    that follows is never read; [listen_for_controls], given the same
    first datagram, goes on and serves the next command. *)
Theorem decode_error_ends_registration_loop :
  listen_for_clients ∅
    [(delivering, RecvDatagram [xff] a0);
     (delivering, RecvDatagram (lit "REGISTER") a1)]
  = (∅, [], Break)
  /\ listen_for_controls no_float id some_decimals initial_settings
       [(delivering, RecvDatagram [xff] a0);
        (delivering, RecvDatagram (lit "BLUR:20") a1)]
     = (Settings (235, 148, 146) tt 20, [(lit "BLUR_OK", a1)], Next).
Proof. split; by vm_compute. Qed.

Lemma spaced_REGISTER_differs ws1 ws2 :
  spaces ws1 -> ws1 ++ ws2 <> [] ->
  ws1 ++ REGISTER ++ ws2 <> REGISTER /\ ws1 ++ REGISTER ++ ws2 <> UNREGISTER.
Proof.
  intros Hs Hne. split.
  - intros Heq. apply (f_equal length) in Heq.
    rewrite !length_app in Heq.
    destruct ws1, ws2; simpl in *; try done; lia.
  - destruct Hs as [|c r Hc _]; [discriminate |].
    intros Heq. injection Heq as -> _. discriminate.
Qed.

Lemma handle_registration_cases (net : reply_net) (cs : gset address)
    (message : text) (a : address) :
  (message = REGISTER /\ (a ∉ cs) /\
   handle_registration net cs message a
   = ({[a]} ∪ cs, delivered net REGISTERED a, after_send (net REGISTERED a)))
  \/ (message = UNREGISTER /\ a ∈ cs /\
      handle_registration net cs message a = (cs ∖ {[a]}, [], Next))
  \/ (handle_registration net cs message a = (cs, [], Next) /\
      (message = REGISTER -> a ∈ cs) /\ (message = UNREGISTER -> a ∉ cs)).
Proof.
  destruct (decide (a ∈ cs)) as [Hin | Hout];
    destruct (decide (message = REGISTER)) as [-> | Hreg].
  - right; right. rewrite handle_registration_known by done.
    by repeat split.
  - destruct (decide (message = UNREGISTER)) as [-> | Hun].
    + right; left. repeat split; [done |]. unfold handle_registration.
      rewrite (bool_decide_eq_false_2 (a ∉ cs)) by auto.
      rewrite (bool_decide_eq_true_2 (a ∈ cs)) by done. done.
    + right; right. rewrite handle_registration_other by done.
      by repeat split.
  - left. rewrite handle_registration_new by done. by repeat split.
  - right; right. repeat split; try done.
    unfold handle_registration.
    rewrite (bool_decide_eq_false_2 (message = REGISTER)) by done.
    rewrite (bool_decide_eq_false_2 (a ∈ cs)) by done.
    by rewrite !andb_false_r.
Qed.

Lemma delivered_nonempty (net : reply_net) data a :
  delivered net data a <> [] -> delivered net data a = [(data, a)].
Proof. unfold delivered. by destruct (net data a). Qed.

(** C10: the registration listener compares the decoded text with
    "REGISTER" and "UNREGISTER" as it stands.  A reply or a new member
    means the text was exactly "REGISTER"; a removed member means it was
    exactly "UNREGISTER"; any other text, among them "REGISTER" with
    whitespace before or after it, changes nothing and is not answered.
    The control listener strips the decoded text first, so whitespace
    around a command makes no difference there. *)
Theorem registration_matches_exactly (net : reply_net) (cs : gset address)
    (data : bytes) (a : address) :
  let '(cs', out, fl) :=
    listen_for_clients_iter net cs (RecvDatagram data a) in
  (out <> [] \/ (a ∈ cs' /\ a ∉ cs) ->
     utf8_decode (take bufsize data) = Some REGISTER /\
     out = delivered net REGISTERED a /\
     (out <> [] -> out = [(REGISTERED, a)]) /\
     cs' = {[a]} ∪ cs) /\
  (a ∈ cs /\ a ∉ cs' ->
     utf8_decode (take bufsize data) = Some UNREGISTER /\
     cs' = cs ∖ {[a]}) /\
  (forall message, utf8_decode (take bufsize data) = Some message ->
     message <> REGISTER -> message <> UNREGISTER ->
     cs' = cs /\ out = [] /\ fl = Next) /\
  (forall ws1 ws2, utf8_decode (take bufsize data)
                   = Some (ws1 ++ REGISTER ++ ws2) ->
     spaces ws1 -> ws1 ++ ws2 <> [] -> cs' = cs /\ out = []) /\
  (forall (float : Type) (pf : text -> option float) (cl : float -> float)
          (ud : Z -> option Z) (net' : reply_net)
          (st : settings float) (decoded : text),
     utf8_decode (take bufsize data) = Some decoded ->
     listen_for_controls_iter pf cl ud net' st (RecvDatagram data a)
     = (handle_command pf cl ud net' st (strip decoded) a, Next) /\
     forall ws1 ws2, spaces ws1 -> spaces ws2 ->
       strip (ws1 ++ decoded ++ ws2) = strip decoded).
Proof.
  unfold listen_for_clients_iter.
  destruct (utf8_decode (take bufsize data)) as [message |] eqn:Hdec.
  - assert (forall (float : Type) (pf : text -> option float)
              (cl : float -> float) (ud : Z -> option Z) (net' : reply_net)
              (st : settings float) (decoded : text),
              Some message = Some decoded ->
              listen_for_controls_iter pf cl ud net' st (RecvDatagram data a)
              = (handle_command pf cl ud net' st (strip decoded) a, Next) /\
              forall ws1 ws2, spaces ws1 -> spaces ws2 ->
                strip (ws1 ++ decoded ++ ws2) = strip decoded) as Hctl.
    { intros float pf cl ud net' st decoded [= <-].
      split; [| by intros; apply strip_spaces_around].
      unfold listen_for_controls_iter. rewrite Hdec.
      by destruct (handle_command pf cl ud net' st (strip message) a). }
    assert (forall ws1 ws2, Some message = Some (ws1 ++ REGISTER ++ ws2) ->
              spaces ws1 -> ws1 ++ ws2 <> [] ->
              message <> REGISTER /\ message <> UNREGISTER) as Hws.
    { intros ws1 ws2 [= ->] Hs Hne. by apply spaced_REGISTER_differs. }
    pose proof (delivered_nonempty net REGISTERED a) as Hdel.
    destruct (handle_registration_cases net cs message a)
      as [(-> & Ha & ->) | [(-> & Ha & ->) | (-> & Hr & Hu)]].
    all: split; [| split; [| split; [| split; [| exact Hctl]]]].
    all: repeat split; try done.
    all: try (intros [? | [? ?]]; by auto).
    all: exfalso.
    all: repeat match goal with
                | H : _ /\ _ |- _ => destruct H
                | H : _ \/ _ |- _ => destruct H
                end.
    all: try done.
    all: try (match goal with
              | H : Some _ = Some (_ ++ REGISTER ++ _) |- _ =>
                by destruct (Hws _ _ H)
              end).
    all: set_solver.
  - split; [| split; [| split; [| split]]]; try done.
    all: intros H; exfalso.
    all: repeat match goal with
                | H : _ /\ _ |- _ => destruct H
                | H : _ \/ _ |- _ => destruct H
                end.
    all: done.
Qed.

(** ** Control listener *)

Lemma startswith_app p s : startswith (p ++ s) p = true.
Proof.
  induction p as [|c p IH]; simpl; [done |].
  rewrite Z.eqb_refl. exact IH.
Qed.

(** [int] on a control character, and on digits that are not ASCII. *)
Example py_int_unit_separator : py_int some_decimals [31; 55] = None.
Proof. reflexivity. Qed.

Example py_int_arabic_indic : py_int some_decimals [1634; 1632] = Some 20.
Proof. reflexivity. Qed.

(** The fields of a well-formed colour command are read back as they
    were written. *)
Lemma parse_color_fields ud fr fg fb r g b :
  py_int ud fr = Some r -> py_int ud fg = Some g -> py_int ud fb = Some b ->
  parse_color ud (str "COLOR:" ++ fr ++ comma :: fg ++ comma :: fb)
  = Some (r, g, b).
Proof.
  intros Hr Hg Hb. unfold parse_color.
  pose proof (py_int_no_separator _ _ _ colon Hr (or_introl eq_refl)) as Hr1.
  pose proof (py_int_no_separator _ _ _ colon Hg (or_introl eq_refl)) as Hg1.
  pose proof (py_int_no_separator _ _ _ colon Hb (or_introl eq_refl)) as Hb1.
  pose proof (py_int_no_separator _ _ _ comma Hr (or_intror eq_refl)) as Hr2.
  pose proof (py_int_no_separator _ _ _ comma Hg (or_intror eq_refl)) as Hg2.
  pose proof (py_int_no_separator _ _ _ comma Hb (or_intror eq_refl)) as Hb2.
  change (str "COLOR:") with (str "COLOR" ++ [colon]).
  rewrite <- app_assoc. simpl ([colon] ++ _).
  rewrite split_app_sep by (vm_compute; set_solver).
  rewrite split_no_sep.
  2: { rewrite !not_elem_of_app, !not_elem_of_cons, !not_elem_of_app,
         !not_elem_of_cons. unfold colon, comma in Hr1, Hg1, Hb1 |- *.
       repeat split; auto; lia. }
  simpl. rewrite split_app_sep by done. rewrite split_app_sep by done.
  rewrite split_no_sep by done. simpl.
  by rewrite Hr, Hg, Hb.
Qed.

Lemma answer_stored {float : Type} (net : reply_net) (st st' : settings float)
    (ok error : bytes) (addr : address) :
  answer net st (Some st') ok error addr
  = (st', match net ok addr with
          | Sent => [(ok, addr)]
          | _ => delivered net error addr
          end).
Proof. unfold answer. by destruct (net ok addr). Qed.

Lemma elem_of_delivered (net : reply_net) data a x :
  x ∈ delivered net data a -> x = (data, a).
Proof.
  unfold delivered. destruct (net data a); [| by intros ?%elem_of_nil ..].
  by intros ->%list_elem_of_singleton.
Qed.

Lemma elem_of_answer {float : Type} (net : reply_net) (st : settings float)
    stored ok error addr x :
  x ∈ (answer net st stored ok error addr).2 ->
  x = (ok, addr) \/ x = (error, addr).
Proof.
  unfold answer. destruct stored; [destruct (net ok addr) |]; simpl.
  - intros ->%list_elem_of_singleton. by left.
  - intros ->%elem_of_delivered. by right.
  - intros ->%elem_of_delivered. by right.
  - intros ->%elem_of_delivered. by right.
Qed.

(** When the error token of the colour command is on the wire, either
    the settings are as they were or the OK token could not be sent. *)
Lemma handle_color_error {float : Type} (py_float : text -> option float)
    (clamp_unit : float -> float) (ud : Z -> option Z) (net : reply_net)
    (st : settings float) (command : text) (addr : address) :
  (lit "COLOR_ERROR", addr)
    ∈ (handle_command py_float clamp_unit ud net st command addr).2 ->
  (handle_command py_float clamp_unit ud net st command addr).1 = st
  \/ net (lit "COLOR_OK") addr <> Sent.
Proof.
  unfold handle_command.
  destruct (startswith command (str "COLOR:"));
    [| destruct (startswith command (str "INTENSITY:"));
       [| destruct (startswith command (str "BLUR:"))]].
  - unfold answer. destruct (parse_color ud command); simpl; [| by left].
    destruct (net (lit "COLOR_OK") addr); [| by right ..].
    simpl. intros [= H]%list_elem_of_singleton.
  - intros [[= H] | [= H]]%elem_of_answer.
  - intros [[= H] | [= H]]%elem_of_answer.
  - by intros ?%elem_of_nil.
Qed.

(** C1 (as the code has it): a control datagram whose stripped text is
    COLOR:<r>,<g>,<b> with three fields [int] accepts makes the colour of
    the settings (r, g, b), whatever the values of r, g and b are: no
    range is checked.  COLOR_OK is then sent; COLOR_ERROR is sent in its
    place, with the new colour kept, when the [sendto] of COLOR_OK raises.
    For any command, when COLOR_ERROR is sent and the network would have
    taken COLOR_OK, the settings are unchanged. *)
Theorem color_accepts_any_integers {float : Type}
    (py_float : text -> option float) (clamp_unit : float -> float)
    (ud : Z -> option Z) (net : reply_net)
    (st : settings float) (data : bytes) (addr : address)
    (decoded fr fg fb : text) (r g b : Z) :
  utf8_decode (take bufsize data) = Some decoded ->
  strip decoded = str "COLOR:" ++ fr ++ comma :: fg ++ comma :: fb ->
  py_int ud fr = Some r -> py_int ud fg = Some g -> py_int ud fb = Some b ->
  listen_for_controls_iter py_float clamp_unit ud net st
    (RecvDatagram data addr)
  = (Settings (r, g, b) (blush_intensity st) (blush_blur st),
     match net (lit "COLOR_OK") addr with
     | Sent => [(lit "COLOR_OK", addr)]
     | _ => delivered net (lit "COLOR_ERROR") addr
     end, Next)
  /\ forall (st0 : settings float) (command : text),
       (lit "COLOR_ERROR", addr)
         ∈ (handle_command py_float clamp_unit ud net st0 command addr).2 ->
       net (lit "COLOR_OK") addr = Sent ->
       (handle_command py_float clamp_unit ud net st0 command addr).1 = st0.
Proof.
  intros Hdec Hform Hr Hg Hb. split.
  - unfold listen_for_controls_iter. rewrite Hdec, Hform.
    unfold handle_command. rewrite startswith_app.
    rewrite (parse_color_fields ud fr fg fb r g b Hr Hg Hb). simpl fmap.
    by rewrite answer_stored.
  - intros st0 command Hin Hok.
    by destruct (handle_color_error py_float clamp_unit ud net st0 command
                   addr Hin).
Qed.

Lemma color_accepts_any_integers_witness :
  listen_for_controls_iter no_float id some_decimals delivering
    initial_settings (RecvDatagram (lit " COLOR:300,-10,+1_0 ") a0)
  = (Settings (300, -10, 10) tt 15, [(lit "COLOR_OK", a0)], Next).
Proof.
  apply (color_accepts_any_integers no_float id some_decimals delivering
           initial_settings
           (lit " COLOR:300,-10,+1_0 ") a0 (str " COLOR:300,-10,+1_0 ")
           (str "300") (str "-10") (str "+1_0") 300 (-10) 10);
    reflexivity.
Defined.

(** C1, the claim as the spec states it fails: COLOR:300,10,10 is answered
    with COLOR_OK and 300 is stored. *)
Lemma color_out_of_range_counterexample :
  listen_for_controls_iter no_float id some_decimals delivering
    initial_settings (RecvDatagram (lit "COLOR:300,10,10") a0)
  = (Settings (300, 10, 10) tt 15, [(lit "COLOR_OK", a0)], Next)
  /\ blush_color_rgb initial_settings = (235, 148, 146).
Proof. split; reflexivity. Qed.

(** ** Headers *)

Lemma byte_val_of_Z v : byte_val (byte_of_Z v) = v mod 256.
Proof.
  unfold byte_val, byte_of_Z.
  assert (Z.land v 255 = v mod 256) as ->.
  { change 255 with (Z.ones 8). by rewrite Z.land_ones by lia. }
  pose proof (Z.mod_pos_bound v 256 ltac:(lia)) as Hb.
  destruct (Byte.of_N (Z.to_N (v mod 256))) as [b |] eqn:E.
  - apply Byte.to_of_N in E. rewrite E. lia.
  - apply Byte.of_N_None_iff in E. lia.
Qed.

Lemma length_be32 v : length (be32 v) = 4%nat.
Proof. reflexivity. Qed.

(** Reading the four bytes back, most significant first, gives the
    packed value. *)
Lemma u32_of_be32 v : 0 <= v < 4294967296 -> u32_of_be (be32 v) = v.
Proof.
  intros Hv. unfold u32_of_be, be32. simpl.
  rewrite !byte_val_of_Z, !Z.shiftr_div_pow2 by lia.
  change (2 ^ 24) with (256 * (256 * 256)).
  change (2 ^ 16) with (256 * 256). change (2 ^ 8) with 256.
  rewrite <- !Z.div_div by lia.
  pose proof (Z.div_mod v 256 ltac:(lia)) as H0.
  pose proof (Z.div_mod (v / 256) 256 ltac:(lia)) as H1.
  pose proof (Z.div_mod (v / 256 / 256) 256 ltac:(lia)) as H2.
  assert (v / 256 / 256 / 256 < 256) as H3.
  { rewrite !Z.div_div by lia. apply Z.div_lt_upper_bound; lia. }
  assert (0 <= v / 256 / 256 / 256) as H4 by (repeat apply Z.div_pos; lia).
  rewrite (Z.mod_small (v / 256 / 256 / 256)) by lia.
  set (q1 := v / 256) in *. set (q2 := q1 / 256) in *.
  set (q3 := q2 / 256) in *. set (r0 := v mod 256) in *.
  set (r1 := q1 mod 256) in *. set (r2 := q2 mod 256) in *.
  clearbody q1 q2 q3 r0 r1 r2. subst. ring.
Qed.

Lemma pack_I_Some v h : pack_I v = Some h -> 0 <= v < 4294967296 /\ h = be32 v.
Proof.
  unfold pack_I, between. destruct (_ && _) eqn:E; [| discriminate].
  intros [= <-]. apply andb_true_iff in E as [?%Z.leb_le ?%Z.leb_le].
  split; [lia | done].
Qed.

Lemma pack_I_range v : 0 <= v < 4294967296 -> pack_I v = Some (be32 v).
Proof.
  intros Hv. unfold pack_I, between.
  destruct (Z.leb_spec 0 v), (Z.leb_spec v 4294967295); simpl; (done || lia).
Qed.

Lemma udp_packet_Some seq total data ps i d :
  udp_packet seq total data ps i = Some d ->
  0 <= seq < 4294967296 /\ 0 <= total < 4294967296 /\ 0 <= i < 4294967296 /\
  d = datagram seq total data ps i.
Proof.
  unfold udp_packet, struct_pack_III, datagram. intros H.
  destruct (pack_I seq) as [x |] eqn:Hx; [| discriminate].
  destruct (pack_I total) as [y |] eqn:Hy; [| discriminate].
  destruct (pack_I i) as [z |] eqn:Hz; [| discriminate].
  apply pack_I_Some in Hx as [? ->], Hy as [? ->], Hz as [? ->].
  simpl in H. injection H as <-. repeat split; (lia || reflexivity).
Qed.

Lemma udp_packet_range seq total data ps i :
  0 <= seq < 4294967296 -> 0 <= total < 4294967296 -> 0 <= i < 4294967296 ->
  udp_packet seq total data ps i = Some (datagram seq total data ps i).
Proof.
  intros Hs Ht Hi. unfold udp_packet, struct_pack_III, datagram.
  rewrite !pack_I_range by done. reflexivity.
Qed.

Lemma datagram_fields seq total data ps i :
  0 <= seq < 4294967296 -> 0 <= total < 4294967296 -> 0 <= i < 4294967296 ->
  let d := datagram seq total data ps i in
  u32_of_be (take 4 d) = seq /\ u32_of_be (take 4 (drop 4 d)) = total /\
  u32_of_be (take 4 (drop 8 d)) = i /\ drop 12 d = chunk data ps i.
Proof.
  intros Hs Ht Hi. unfold datagram.
  change (take 4 (be32 seq ++ ?r)) with (be32 seq).
  change (take 4 (drop 4 (be32 seq ++ be32 total ++ ?r))) with (be32 total).
  change (take 4 (drop 8 (be32 seq ++ be32 total ++ be32 i ++ ?r)))
    with (be32 i).
  change (drop 12 (be32 seq ++ be32 total ++ be32 i ++ ?r)) with r.
  by rewrite !u32_of_be32.
Qed.

(** ** Slices and the number of packets *)

Lemma chunk_take_drop (data : bytes) ps i :
  0 < ps -> 0 <= i ->
  chunk data ps i = take (Z.to_nat ps) (drop (Z.to_nat (i * ps)) data).
Proof.
  intros Hps Hi. unfold chunk, py_slice, slice_index.
  set (len := Z.of_nat (length data)).
  assert (0 <= i * ps) as Hst by lia.
  destruct (Z.ltb_spec (i * ps) 0); [lia |].
  destruct (Z.ltb_spec (Z.min (i * ps + ps) len) 0); [lia |].
  rewrite (Z.min_l (Z.min _ _) len) by lia.
  destruct (Z.le_gt_cases (i * ps) len) as [Hle | Hgt].
  - rewrite (Z.min_l (i * ps) len) by lia.
    destruct (Z.le_gt_cases (i * ps + ps) len) as [Hle' | Hgt'].
    + rewrite Z.min_l by lia. f_equal. lia.
    + rewrite Z.min_r by lia.
      rewrite !take_ge; [done | |]; rewrite length_drop; lia.
  - rewrite (Z.min_r (i * ps) len) by lia.
    rewrite !drop_ge by lia. by rewrite !take_nil.
Qed.

Lemma length_chunk (data : bytes) ps i :
  0 < ps -> 0 <= i -> Z.of_nat (length (chunk data ps i)) <= ps.
Proof.
  intros Hps Hi. rewrite chunk_take_drop by done. rewrite length_take. lia.
Qed.

Lemma concat_chunks (data : bytes) ps (n : nat) :
  0 < ps ->
  concat (chunk data ps <$> seqZ 0 (Z.of_nat n))
  = take (n * Z.to_nat ps) data.
Proof.
  intros Hps. induction n as [|n IH]; [done |].
  rewrite seqZ_S, fmap_app, concat_app, IH. simpl.
  rewrite app_nil_r, chunk_take_drop by lia.
  replace (Z.to_nat ((0 + Z.of_nat n) * ps)) with (n * Z.to_nat ps)%nat by lia.
  rewrite take_take_drop. f_equal. lia.
Qed.

Lemma ceil_div_pos a b :
  0 <= a -> 0 < b ->
  exists t, ceil_div a b = Some t /\ 0 <= t /\ (t - 1) * b < a <= t * b /\
            t = (a + b - 1) / b.
Proof.
  intros Ha Hb. unfold ceil_div.
  destruct (Z.eqb_spec b 0); [lia |]. eexists; split; [done |].
  pose proof (Z.div_mod (- a) b ltac:(lia)) as Hd.
  pose proof (Z.mod_pos_bound (- a) b Hb) as Hm.
  assert (0 <= - (- a / b)) as H0 by nia.
  assert ((- (- a / b) - 1) * b < a <= - (- a / b) * b) as H1 by nia.
  repeat split; try lia.
  apply Z.div_unique with (r := a + b - 1 - b * - (- a / b)); lia.
Qed.

(** ** The inner loop and the fan-out *)


Lemma sent_to_app a l1 l2 : sent_to a (l1 ++ l2) = sent_to a l1 ++ sent_to a l2.
Proof. unfold sent_to. by rewrite filter_app, fmap_app. Qed.

Section FanOut.

Variable fails : network.
Variables seq total : Z.
Variable data : bytes.
Variable ps : Z.

Notation inner a idxs := (send_packets fails seq total data ps a idxs).
Notation outer snapshot registry :=
  (fan_out fails seq total data ps snapshot registry).
Notation dgram := (datagram seq total data ps).

Lemma send_packets_all a idxs :
  u32 seq -> u32 total ->
  Forall (fun i => u32 i /\ fails a i = false) idxs ->
  inner a idxs = ((fun i => (dgram i, a)) <$> idxs, false).
Proof.
  intros Hs Ht. induction 1 as [|i idxs [Hi Hok] _ IH]; [done |].
  simpl. rewrite udp_packet_range, Hok, IH by done. done.
Qed.

Lemma send_packets_until a l1 j l2 :
  u32 seq -> u32 total ->
  Forall (fun i => u32 i /\ fails a i = false) l1 ->
  fails a j = true ->
  inner a (l1 ++ j :: l2) = ((fun i => (dgram i, a)) <$> l1, true).
Proof.
  intros Hs Ht Hl Hj. induction Hl as [|i l1 [Hi Hok] _ IH]; simpl.
  - destruct (udp_packet seq total data ps j); [by rewrite Hj | done].
  - rewrite udp_packet_range, Hok, IH by done. done.
Qed.

Lemma send_packets_elem a idxs d b :
  (d, b) ∈ (inner a idxs).1 ->
  b = a /\ exists i, i ∈ idxs /\ udp_packet seq total data ps i = Some d.
Proof.
  induction idxs as [|i idxs IH]; simpl; [by intros ?%elem_of_nil |].
  destruct (udp_packet seq total data ps i) as [udp |] eqn:Hu;
    [| by intros ?%elem_of_nil].
  destruct (fails a i); [by intros ?%elem_of_nil |].
  destruct (inner a idxs) as [out raised]. simpl in *.
  intros [[= -> ->] | Hin]%elem_of_cons.
  - split; [done |]. exists i. split; [left | done].
  - destruct (IH Hin) as [-> (k & Hk & Hpk)].
    split; [done |]. exists k. split; [by right | done].
Qed.

Lemma send_packets_address a idxs :
  Forall (fun x => x.2 = a) (inner a idxs).1.
Proof.
  apply Forall_forall. intros [d b] Hin.
  by destruct (send_packets_elem _ _ _ _ Hin) as [-> _].
Qed.

Lemma fan_out_registry (snapshot : list address) (registry : gset address)
    (x : address) :
  x ∈ (outer snapshot registry).1 <->
  x ∈ registry /\
  ~ (x ∈ snapshot /\ (inner x (py_range total)).2 = true).
Proof.
  revert registry. induction snapshot as [|c rest IH]; intros registry; simpl.
  - split; [intros H; split; [done |]; by intros [?%elem_of_nil _] | tauto].
  - destruct (inner c (py_range total)) as [out raised] eqn:Hc.
    specialize (IH (if raised then registry ∖ {[c]} else registry)).
    destruct (outer rest _) as [registry'' out']. simpl in *.
    rewrite IH. clear IH. rewrite elem_of_cons.
    destruct raised.
    + rewrite elem_of_difference, elem_of_singleton. split.
      * intros [[Hx Hne] Hrest]. split; [done |].
        intros [[-> | Hin] Hr]; [done | tauto].
      * intros [Hx Hn]. split; [split; [done |] |].
        -- intros ->. apply Hn. rewrite Hc. auto.
        -- intros [Hin Hr]. apply Hn. auto.
    + split.
      * intros [Hx Hrest]. split; [done |].
        intros [[-> | Hin] Hr]; [by rewrite Hc in Hr | tauto].
      * intros [Hx Hn]. split; [done |]. intros [Hin Hr]. apply Hn. auto.
Qed.

Lemma sent_to_other a b idxs : a <> b -> sent_to a (inner b idxs).1 = [].
Proof.
  intros Hne. unfold sent_to.
  pose proof (send_packets_address b idxs) as Hall.
  induction Hall as [|x l Hx _ IH]; [done |].
  rewrite filter_cons_False by congruence. exact IH.
Qed.

Lemma sent_to_same a idxs :
  sent_to a (inner a idxs).1 = fst <$> (inner a idxs).1.
Proof.
  unfold sent_to. f_equal.
  pose proof (send_packets_address a idxs) as Hall.
  induction Hall as [|x l Hx _ IH]; [done |].
  rewrite filter_cons_True by done. f_equal. exact IH.
Qed.

Lemma fan_out_sent_to (snapshot : list address) (registry : gset address)
    (a : address) :
  NoDup snapshot ->
  sent_to a (outer snapshot registry).2
  = if decide (a ∈ snapshot)
    then fst <$> (inner a (py_range total)).1
    else [].
Proof.
  intros Hnd. revert registry.
  induction Hnd as [|c rest Hc _ IH]; intros registry; simpl.
  - by destruct (decide (a ∈ [])) as [?%elem_of_nil |].
  - destruct (inner c (py_range total)) as [out raised] eqn:Hin.
    specialize (IH (if raised then registry ∖ {[c]} else registry)).
    destruct (outer rest _) as [registry'' out']. simpl in *.
    rewrite sent_to_app, IH.
    replace out with (inner c (py_range total)).1 by (by rewrite Hin).
    destruct (decide (a = c)) as [-> | Hne].
    + rewrite sent_to_same.
      rewrite decide_False by done.
      rewrite decide_True by left. by rewrite app_nil_r.
    + rewrite sent_to_other by done. simpl.
      destruct (decide (a ∈ rest)) as [Hr | Hr].
      * rewrite decide_True by (by right). done.
      * rewrite decide_False; [done |].
        intros [? | ?]%elem_of_cons; done.
Qed.

Lemma fan_out_elem (snapshot : list address) (registry : gset address)
    (d : bytes) (b : address) :
  (d, b) ∈ (outer snapshot registry).2 ->
  b ∈ snapshot /\ (d, b) ∈ (inner b (py_range total)).1.
Proof.
  revert registry. induction snapshot as [|c rest IH]; intros registry; simpl;
    [by intros ?%elem_of_nil |].
  destruct (inner c (py_range total)) as [out raised] eqn:Hin.
  specialize (IH (if raised then registry ∖ {[c]} else registry)).
  destruct (outer rest _) as [registry'' out']. simpl in *.
  intros [Ho | Ho]%elem_of_app.
  - assert ((d, b) ∈ (inner c (py_range total)).1) as Ho'
      by (by rewrite Hin).
    destruct (send_packets_elem _ _ _ _ Ho') as [-> _].
    split; [left | done].
  - destruct (IH Ho) as [? ?]. split; [by right | done].
Qed.

Lemma fan_out_nothing (snapshot : list address) (registry : gset address) :
  total <= 0 -> outer snapshot registry = (registry, []).
Proof.
  intros Ht. revert registry.
  induction snapshot as [|c rest IH]; intros registry; simpl; [done |].
  unfold py_range. rewrite seqZ_nil by done. simpl. by rewrite IH.
Qed.

End FanOut.

(** ** Fragmentation *)

Lemma ceil_div_positive_divisor a b t :
  0 <= a -> ceil_div a b = Some t -> 0 < t -> 0 < b.
Proof.
  unfold ceil_div. intros Ha H Ht.
  destruct (Z.eqb_spec b 0); [discriminate |]. injection H as <-.
  destruct (Z.lt_trichotomy b 0) as [Hb | [Hb | Hb]]; [| lia | done].
  replace b with (- - b) in Ht by lia. rewrite Z.div_opp_opp in Ht by lia.
  pose proof (Z.div_pos a (- b) Ha ltac:(lia)). lia.
Qed.

Lemma fst_datagrams seq total data ps (a : address) (l : list Z) :
  fst <$> ((fun i => (datagram seq total data ps i, a)) <$> l)
  = datagram seq total data ps <$> l.
Proof. by rewrite <- list_fmap_compose. Qed.

Lemma drop_header seq total data ps :
  (drop 12 ∘ datagram seq total data ps) = chunk data ps.
Proof. reflexivity. Qed.

Lemma served_client (fails : network) (s : server) (data : bytes)
    (b : address) (total : Z) :
  let seq := sequence_number s + 1 in
  let ps := max_packet_size s - header_size in
  ceil_div (Z.of_nat (length data)) ps = Some total ->
  u32 seq -> u32 total -> b ∈ clients s ->
  (forall i, fails b i = false) ->
  sent_to b (send_frames_iter fails s (Encoded data)).1.2
  = datagram seq total data ps <$> py_range total.
Proof.
  intros seq ps Hc Hs Ht Hb Hok. unfold send_frames_iter. fold seq ps.
  rewrite Hc.
  pose proof (fan_out_sent_to fails seq total data ps (elements (clients s))
                (clients s) b (NoDup_elements _)) as Hsent.
  destruct (fan_out fails seq total data ps (elements (clients s)) (clients s))
    as [registry out]. simpl in Hsent |- *.
  rewrite decide_True in Hsent by (by apply elem_of_elements).
  rewrite Hsent, send_packets_all; [apply fst_datagrams | done | done |].
  apply Forall_seqZ. intros i Hi. split; [unfold u32 in *; lia | done].
Qed.

(** C2: with a maximum datagram size above the header size, one pass of
    the broadcast loop cuts the payload into the ceiling of its length over
    the payload size packets, with the indices from 0 to one below that
    number, and the chunks put together in index order give back the
    payload.  A client of the registry to which no send fails is sent,
    when the header fields fit in 32 bits, exactly these packets in index
    order: the datagram at position i carries index i and the chunk of
    index i, and the datagrams without their headers give back the
    payload. *)
Theorem fragmentation_roundtrip (fails : network) (s : server)
    (data : bytes) :
  header_size < max_packet_size s ->
  let L := Z.of_nat (length data) in
  let ps := max_packet_size s - header_size in
  let seq := sequence_number s + 1 in
  let '(s', out, fl) := send_frames_iter fails s (Encoded data) in
  exists total,
    ceil_div L ps = Some total /\
    (total - 1) * ps < L <= total * ps /\
    total = (L + ps - 1) / ps /\
    length (py_range total) = Z.to_nat total /\
    (forall i : nat, (i < Z.to_nat total)%nat ->
       py_range total !! i = Some (Z.of_nat i)) /\
    concat (chunk data ps <$> py_range total) = data /\
    fl = Next /\
    (forall b, b ∈ clients s -> (forall i, fails b i = false) ->
       u32 seq -> u32 total ->
       sent_to b out = datagram seq total data ps <$> py_range total /\
       length (sent_to b out) = Z.to_nat total /\
       (forall i : nat, (i < Z.to_nat total)%nat ->
          exists d, sent_to b out !! i = Some d /\
            u32_of_be (take 4 (drop 4 d)) = total /\
            u32_of_be (take 4 (drop 8 d)) = Z.of_nat i /\
            drop 12 d = chunk data ps (Z.of_nat i)) /\
       concat (drop 12 <$> sent_to b out) = data).
Proof.
  intros HM L ps seq. assert (0 < ps) as Hps by (unfold ps; lia).
  destruct (ceil_div_pos L ps ltac:(lia) Hps) as (t & Hc & Ht & Hb & Hf).
  assert (length (py_range t) = Z.to_nat t) as Hlen
    by (unfold py_range; apply length_seqZ).
  assert (forall i : nat, (i < Z.to_nat t)%nat ->
            py_range t !! i = Some (Z.of_nat i)) as Hidx.
  { intros i Hi. unfold py_range. rewrite lookup_seqZ_lt by lia.
    f_equal; lia. }
  assert (concat (chunk data ps <$> py_range t) = data) as Hcat.
  { unfold py_range. rewrite <- (Z2Nat.id t) by lia.
    rewrite concat_chunks by done. apply take_ge. nia. }
  pose proof (fun b => served_client fails s data b t Hc) as Hserved.
  assert ((send_frames_iter fails s (Encoded data)).2 = Next) as Hfl.
  { unfold send_frames_iter. fold L ps. rewrite Hc.
    by destruct (fan_out _ _ _ _ _ _ _). }
  destruct (send_frames_iter fails s (Encoded data)) as [[s' out] fl].
  simpl in Hserved, Hfl.
  exists t. do 6 (split; [done || lia |]). split; [done |].
  intros b Hb' Hok Hs Hu.
  rewrite (Hserved b Hs Hu Hb' Hok). fold seq ps.
  split; [done |]. split; [by rewrite length_fmap |]. split.
  - intros i Hi. exists (datagram seq t data ps (Z.of_nat i)).
    rewrite list_lookup_fmap, (Hidx i Hi). split; [done |].
    destruct (datagram_fields seq t data ps (Z.of_nat i) Hs Hu)
      as (_ & F2 & F3 & F4); [unfold u32 in *; lia | done].
  - by rewrite <- list_fmap_compose, drop_header.
Qed.

Lemma fragmentation_roundtrip_witness :
  let '(s', out, fl) :=
    send_frames_iter reliable (Server {[a0]} 0 15) (Encoded (lit "abcdefg")) in
  exists total,
    ceil_div 7 3 = Some total /\ total = 3 /\
    length (sent_to a0 out) = Z.to_nat total /\
    concat (drop 12 <$> sent_to a0 out) = lit "abcdefg".
Proof.
  pose proof (fragmentation_roundtrip reliable (Server {[a0]} 0 15)
                (lit "abcdefg") eq_refl) as H.
  cbv zeta in H.
  destruct (send_frames_iter reliable (Server {[a0]} 0 15)
              (Encoded (lit "abcdefg"))) as [[s' out] fl].
  destruct H as (total & Hc & _ & Hf & _ & _ & _ & _ & Hb).
  assert (total = 3) as -> by (rewrite Hf; reflexivity).
  destruct (Hb a0) as (_ & Hlen & _ & Hcat).
  - simpl. set_solver.
  - done.
  - unfold u32. simpl. lia.
  - unfold u32. lia.
  - exists 3. split; [exact Hc |]. split; [done |].
    split; [exact Hlen | exact Hcat].
Defined.

(** The scenario of the spec: 100000 bytes in datagrams of 32768. *)
Example packets_for_100000_bytes : ceil_div 100000 (32768 - header_size) = Some 4.
Proof. reflexivity. Qed.

(** C9: an empty payload with a maximum datagram size above the header
    size gives zero packets: the division is by a positive number, the
    loops over the packets are empty, no datagram is sent and no client is
    dropped. *)
Theorem empty_payload_sends_nothing (fails : network) (s : server) :
  header_size < max_packet_size s ->
  ceil_div 0 (max_packet_size s - header_size) = Some 0 /\
  py_range 0 = [] /\
  send_frames_iter fails s (Encoded [])
  = (Server (clients s) (sequence_number s + 1) (max_packet_size s), [], Next).
Proof.
  intros HM.
  assert (ceil_div 0 (max_packet_size s - header_size) = Some 0) as Hc.
  { unfold ceil_div. destruct (Z.eqb_spec (max_packet_size s - header_size) 0);
      [lia |]. simpl. by rewrite Z.div_0_l by done. }
  split; [done |]. split; [done |].
  unfold send_frames_iter. simpl length. change (Z.of_nat 0) with 0.
  rewrite Hc. by rewrite fan_out_nothing.
Qed.

Lemma empty_payload_sends_nothing_witness :
  send_frames_iter reliable (Server {[a0]} 0 32768) (Encoded [])
  = (Server {[a0]} 1 32768, [], Next).
Proof.
  destruct (empty_payload_sends_nothing reliable (Server {[a0]} 0 32768))
    as (_ & _ & H); [reflexivity | exact H].
Defined.

(** ** The broadcast loop *)

Lemma send_frames_iter_encoded_sequence fails s frame_data :
  sequence_number (send_frames_iter fails s (Encoded frame_data)).1.1
  = sequence_number s + 1.
Proof.
  unfold send_frames_iter.
  destruct (ceil_div _ _); [| done]. by destruct (fan_out _ _ _ _ _ _ _).
Qed.

(** C7: an iteration in which the camera gives no frame, or the encoder
    reports failure, changes nothing and sends nothing; the sequence
    number changes only in an iteration with an encoded frame, and then
    by one. *)
Theorem dropped_frame_keeps_sequence (fails : network) (s : server) :
  send_frames_iter fails s Dropped = (s, [], Next) /\
  send_frames_iter fails s EncodeFailed = (s, [], Next) /\
  (forall c,
     sequence_number (send_frames_iter fails s c).1.1 <> sequence_number s ->
     exists frame_data, c = Encoded frame_data) /\
  (forall frame_data,
     sequence_number (send_frames_iter fails s (Encoded frame_data)).1.1
     = sequence_number s + 1).
Proof.
  split; [done |]. split; [done |]. split.
  - intros [| | frame_data] H; simpl in H; [done | done | by eexists].
  - apply send_frames_iter_encoded_sequence.
Qed.

(** Where a datagram of one iteration comes from: an index of the inner
    loop, an address of the snapshot, and header fields that
    [struct.pack] accepted. *)
Lemma sent_datagram_origin (fails : network) (s : server) (data d : bytes)
    (a : address) :
  (d, a) ∈ (send_frames_iter fails s (Encoded data)).1.2 ->
  let ps := max_packet_size s - 12 in
  let seq := sequence_number s + 1 in
  exists total i,
    ceil_div (Z.of_nat (length data)) ps = Some total /\
    0 <= i < total /\ 0 < ps /\ a ∈ clients s /\
    u32 seq /\ u32 total /\ u32 i /\
    d = datagram seq total data ps i.
Proof.
  intros Hin ps seq. unfold send_frames_iter in Hin.
  change (max_packet_size s - header_size) with ps in Hin.
  fold seq in Hin.
  destruct (ceil_div (Z.of_nat (length data)) ps) as [total |] eqn:Hc;
    [| by apply elem_of_nil in Hin].
  destruct (fan_out fails seq total data ps (elements (clients s))
              (clients s)) as [registry out] eqn:Hf.
  simpl in Hin.
  assert ((d, a) ∈ (fan_out fails seq total data ps
                      (elements (clients s)) (clients s)).2) as Hin'
    by (by rewrite Hf).
  apply fan_out_elem in Hin' as [Ha Hin'].
  apply send_packets_elem in Hin' as [_ (i & Hi & Hu)].
  apply udp_packet_Some in Hu as (Hs & Ht & Hi32 & Hd).
  apply elem_of_seqZ in Hi.
  assert (0 < ps) as Hps.
  { eapply ceil_div_positive_divisor; [| exact Hc |]; lia. }
  exists total, i. repeat split; try done; try lia.
  by apply elem_of_elements.
Qed.

(** C8: every datagram of the frame channel is twelve bytes of header,
    the sequence number, the number of packets and the packet index, each
    as 32 bits in network byte order, followed by a slice of the payload
    of at most the maximum datagram size less twelve bytes; its length is
    at most the maximum datagram size. *)
Theorem datagram_layout (fails : network) (s : server) (data d : bytes)
    (a : address) :
  (d, a) ∈ (send_frames_iter fails s (Encoded data)).1.2 ->
  let M := max_packet_size s in
  let seq := sequence_number s + 1 in
  exists total i,
    ceil_div (Z.of_nat (length data)) (M - 12) = Some total /\
    0 <= i < total /\ a ∈ clients s /\
    d = be32 seq ++ be32 total ++ be32 i ++ chunk data (M - 12) i /\
    u32 seq /\ u32 total /\ u32 i /\
    u32_of_be (take 4 d) = seq /\
    u32_of_be (take 4 (drop 4 d)) = total /\
    u32_of_be (take 4 (drop 8 d)) = i /\
    drop 12 d = chunk data (M - 12) i /\
    chunk data (M - 12) i
    = take (Z.to_nat (M - 12)) (drop (Z.to_nat (i * (M - 12))) data) /\
    Z.of_nat (length (drop 12 d)) <= M - 12 /\
    Z.of_nat (length d) <= M.
Proof.
  intros Hin M seq.
  destruct (sent_datagram_origin fails s data d a Hin)
    as (total & i & Hc & Hi & Hps & Ha & Hs & Ht & Hi32 & Hd).
  fold M seq in Hc, Hps, Hd.
  destruct (datagram_fields seq total data (M - 12) i Hs Ht Hi32)
    as (F1 & F2 & F3 & F4).
  pose proof (length_chunk data (M - 12) i Hps ltac:(lia)) as Hlen.
  exists total, i. rewrite <- Hd in F1, F2, F3, F4.
  unfold u32 in *. repeat split; try done; try lia.
  - apply chunk_take_drop; lia.
  - by rewrite F4.
  - rewrite Hd. unfold datagram. rewrite !length_app, !length_be32. lia.
Qed.

Lemma datagram_layout_witness :
  exists total i,
    ceil_div 7 (15 - 12) = Some total /\ 0 <= i < total /\ i = 1.
Proof.
  destruct (datagram_layout reliable (Server {[a0]} 47 15) (lit "abcdefg")
              ([x00; x00; x00; x30; x00; x00; x00; x03; x00; x00; x00; x01]
               ++ lit "def") a0)
    as (total & i & Hc & Hi & _ & _ & _ & _ & _ & _ & _ & F3 & _).
  { vm_compute. set_solver. }
  exists total, i. split; [exact Hc |]. split; [exact Hi |].
  rewrite <- F3. reflexivity.
Defined.

(** C5: when, during the fan-out of one frame, the sends to one address
    of the snapshot fail from packet j on and every other send succeeds,
    that address gets the packets before j and no more, it is the one
    address removed from the registry, and every other address of the
    snapshot gets all the packets in index order and stays registered. *)
Theorem send_failure_isolated (fails : network) (s : server) (data : bytes)
    (a : address) (j total : Z) :
  let seq := sequence_number s + 1 in
  let ps := max_packet_size s - header_size in
  ceil_div (Z.of_nat (length data)) ps = Some total ->
  u32 seq -> u32 total ->
  a ∈ clients s ->
  0 <= j < total ->
  fails a j = true ->
  (forall i, 0 <= i < j -> fails a i = false) ->
  (forall b i, b <> a -> fails b i = false) ->
  let '(s', out, fl) := send_frames_iter fails s (Encoded data) in
  clients s' = clients s ∖ {[a]} /\
  sent_to a out = datagram seq total data ps <$> seqZ 0 j /\
  (forall b, b ∈ clients s -> b <> a ->
     b ∈ clients s' /\
     sent_to b out = datagram seq total data ps <$> py_range total) /\
  fl = Next /\ sequence_number s' = seq.
Proof.
  intros seq ps Hc Hs Ht Ha Hj Hfail Hbefore Hothers.
  unfold send_frames_iter. fold seq ps. rewrite Hc.
  assert (send_packets fails seq total data ps a (py_range total)
          = ((fun i => (datagram seq total data ps i, a)) <$> seqZ 0 j, true))
    as Hinner_a.
  { unfold py_range. replace total with (j + (total - j)) at 2 by lia.
    rewrite seqZ_app by lia. rewrite (seqZ_cons (0 + j)) by lia.
    apply send_packets_until; [done | done | | done].
    apply Forall_seqZ. intros i Hi. split; [unfold u32 in *; lia |].
    apply Hbefore. lia. }
  assert (forall b, b <> a ->
            send_packets fails seq total data ps b (py_range total)
            = ((fun i => (datagram seq total data ps i, b)) <$> py_range total,
               false)) as Hinner_b.
  { intros b Hb. apply send_packets_all; [done | done |].
    apply Forall_seqZ. intros i Hi. split; [unfold u32 in *; lia |].
    by apply Hothers. }
  pose proof (fan_out_registry fails seq total data ps (elements (clients s))
                (clients s)) as Hreg.
  pose proof (fun b => fan_out_sent_to fails seq total data ps
                (elements (clients s)) (clients s) b (NoDup_elements _))
    as Hsent.
  destruct (fan_out fails seq total data ps (elements (clients s)) (clients s))
    as [registry out]. simpl in Hreg, Hsent.
  assert (forall x, x ∈ registry <-> x ∈ clients s /\ x <> a) as Hmem.
  { intros x. rewrite Hreg, elem_of_elements. split.
    - intros [Hx Hn]. split; [done |]. intros ->. apply Hn.
      by rewrite Hinner_a.
    - intros [Hx Hne]. split; [done |]. intros [_ Hr].
      by rewrite Hinner_b in Hr. }
  simpl. repeat split.
  - apply set_eq. intros x. rewrite Hmem. set_solver.
  - rewrite Hsent, decide_True by (by apply elem_of_elements).
    rewrite Hinner_a. apply fst_datagrams.
  - by apply Hmem.
  - rewrite Hsent, decide_True by (by apply elem_of_elements).
    rewrite Hinner_b by done. apply fst_datagrams.
Qed.

Lemma send_failure_isolated_witness :
  let '(s', out, fl) :=
    send_frames_iter a0_fails_at_1 (Server {[a0; a1]} 0 15)
                     (Encoded (lit "abcdefg")) in
  clients s' = {[a0; a1]} ∖ {[a0]} /\
  sent_to a0 out = datagram 1 3 (lit "abcdefg") 3 <$> seqZ 0 1 /\
  sent_to a1 out = datagram 1 3 (lit "abcdefg") 3 <$> py_range 3.
Proof.
  pose proof (send_failure_isolated a0_fails_at_1 (Server {[a0; a1]} 0 15)
                (lit "abcdefg") a0 1 3) as H.
  cbv zeta in H.
  destruct (send_frames_iter a0_fails_at_1 (Server {[a0; a1]} 0 15)
              (Encoded (lit "abcdefg"))) as [[s' out] fl].
  destruct H as (H1 & H2 & H3 & _).
  - reflexivity.
  - unfold u32; simpl; lia.
  - unfold u32; lia.
  - simpl. set_solver.
  - lia.
  - reflexivity.
  - intros i Hi. assert (i = 0) as -> by lia. reflexivity.
  - intros b i Hb. unfold a0_fails_at_1.
    by rewrite bool_decide_eq_false_2.
  - split; [exact H1 |]. split; [exact H2 |].
    apply (H3 a1); [simpl; set_solver | discriminate].
Defined.

(** ** The sequence number *)

Lemma send_frames_iter_sequence fails s c :
  max_packet_size s <> header_size ->
  exists s' out,
    send_frames_iter fails s c = (s', out, Next) /\
    max_packet_size s' = max_packet_size s /\
    sequence_number s'
    = sequence_number s + encoded_frames [(fails, c)].
Proof.
  intros HM. destruct c as [| | frame_data]; simpl.
  - exists s, []. repeat split; lia.
  - exists s, []. repeat split; lia.
  - unfold ceil_div.
    destruct (Z.eqb_spec (max_packet_size s - header_size) 0); [lia |].
    destruct (fan_out _ _ _ _ _ _ _) as [registry out].
    eexists _, _. repeat split; simpl; lia.
Qed.

(** The counter is a Python integer: after any run that starts from [s]
    it has grown by the number of encoded frames, and it is never reduced. *)
Lemma send_frames_sequence its : forall s,
  max_packet_size s <> header_size ->
  (send_frames s its).2 = Next /\
  max_packet_size (send_frames s its).1.1 = max_packet_size s /\
  sequence_number (send_frames s its).1.1
  = sequence_number s + encoded_frames its.
Proof.
  induction its as [|[fails c] rest IH]; intros s HM; simpl.
  - repeat split; lia.
  - destruct (send_frames_iter_sequence fails s c HM)
      as (s' & out & -> & HM' & Hseq).
    destruct (IH s' ltac:(congruence)) as (Hfl & HM'' & Hseq').
    destruct (send_frames s' rest) as [[s'' out'] fl]. simpl in *.
    repeat split; [done | congruence |].
    rewrite Hseq', Hseq. destruct c; lia.
Qed.

(** C6 (as the code has it): the sequence number is a counter that starts
    at 0 and grows by one with each encoded frame, without wrapping: after
    k encoded frames it is k.  As long as k is below 2^32, the first four
    bytes of every datagram of the k-th encoded frame are k in network
    byte order. *)
Theorem sequence_number_counts_frames (s : server)
    (its : list (network * capture)) (fails : network) (data : bytes) :
  sequence_number s = 0 ->
  max_packet_size s <> header_size ->
  let k := encoded_frames its + 1 in
  let s_k := (send_frames s its).1.1 in
  let r := send_frames_iter fails s_k (Encoded data) in
  sequence_number r.1.1 = k /\
  (k < 4294967296 ->
   forall d a, (d, a) ∈ r.1.2 ->
     take 4 d = be32 k /\ u32_of_be (take 4 d) = k).
Proof.
  intros H0 HM k s_k r.
  destruct (send_frames_sequence its s HM) as (_ & HM' & Hseq).
  fold s_k in HM', Hseq. rewrite H0 in Hseq. simpl in Hseq.
  pose proof (send_frames_iter_encoded_sequence fails s_k data) as Hstep.
  fold r in Hstep.
  assert (sequence_number s_k + 1 = k) as Hk by (unfold k; lia).
  split; [lia |].
  intros Hlt d a Hin.
  destruct (sent_datagram_origin fails s_k data d a Hin)
    as (total & i & _ & _ & _ & _ & Hs & Ht & Hi & Hd).
  rewrite Hk in Hd, Hs.
  destruct (datagram_fields k total data (max_packet_size s_k - 12) i
              Hs Ht Hi) as (F1 & _).
  rewrite Hd. split; [reflexivity | exact F1].
Qed.

Lemma sequence_number_counts_frames_witness :
  let r := send_frames_iter reliable
             (send_frames (Server {[a0]} 0 15)
                [(reliable, Encoded (lit "ab")); (reliable, Dropped);
                 (reliable, Encoded (lit "cd"))]).1.1
             (Encoded (lit "abcdefg")) in
  sequence_number r.1.1 = 3 /\
  (forall d a, (d, a) ∈ r.1.2 -> u32_of_be (take 4 d) = 3).
Proof.
  destruct (sequence_number_counts_frames (Server {[a0]} 0 15)
              [(reliable, Encoded (lit "ab")); (reliable, Dropped);
               (reliable, Encoded (lit "cd"))] reliable (lit "abcdefg"))
    as [H1 H2]; [reflexivity | discriminate |].
  split; [exact H1 |].
  intros d a Hin. apply (H2 eq_refl d a Hin).
Defined.

(** C6, the claim as the spec states it fails: from a counter of 2^32 - 1
    the next encoded frame makes it 2^32, not 0; [struct.pack] refuses the
    value, so no datagram is sent and the client is dropped. *)
Lemma sequence_number_wrap_counterexample :
  send_frames_iter reliable (Server {[a0]} 4294967295 32768)
                   (Encoded (lit "abcdefg"))
  = (Server ∅ 4294967296 32768, [], Next)
  /\ 4294967296 <> 4294967296 mod 2 ^ 32.
Proof. split; [by vm_compute | done]. Qed.

(** * Further properties *)

(** ** Decoding *)

Lemma lead2_payload b :
  between 194 223 (byte_val b) = true -> 2 <= Z.land (byte_val b) 31.
Proof. destruct b; vm_compute; congruence. Qed.

Lemma lead3_payload b :
  between 224 239 (byte_val b) = true -> byte_val b <> 224 ->
  1 <= Z.land (byte_val b) 15.
Proof. destruct b; vm_compute; congruence. Qed.

Lemma lead4_payload b :
  between 240 244 (byte_val b) = true -> byte_val b <> 240 ->
  1 <= Z.land (byte_val b) 7.
Proof. destruct b; vm_compute; congruence. Qed.

Lemma continuation_payload b :
  between 128 191 (byte_val b) = true -> payload6 b = byte_val b - 128.
Proof. destruct b; vm_compute; congruence. Qed.

Lemma second_payload lo hi b :
  128 <= lo -> hi <= 191 ->
  between lo hi (byte_val b) = true -> lo - 128 <= payload6 b.
Proof.
  unfold between at 1. intros Hlo Hhi [H1%Z.leb_le H2%Z.leb_le]%andb_true_iff.
  rewrite continuation_payload; [lia |].
  unfold between. apply andb_true_iff. split; apply Z.leb_le; lia.
Qed.

Lemma payload6_nonneg b : 0 <= payload6 b.
Proof. unfold payload6. apply Z.land_nonneg. right. lia. Qed.

(** A sequence of more than one byte never decodes to a code point below
    128: a text of such code points has one byte per character. *)
Lemma utf8_decode_ascii n : forall data t,
  (length data <= n)%nat ->
  utf8_decode data = Some t -> Forall (fun c => c < 128) t ->
  t = byte_val <$> data.
Proof.
  induction n as [|n IH]; intros [|b0 r0] t Hlen; simpl in Hlen; try lia;
    try (by intros [= <-] _).
  simpl utf8_decode. cbv zeta.
  destruct (Z.ltb_spec (byte_val b0) 128) as [H0 | H0].
  { destruct (utf8_decode r0) as [t' |] eqn:Hr; [| discriminate].
    intros [= <-] Hall. apply Forall_cons in Hall as [_ Hall].
    simpl. f_equal. apply IH; [lia | done | done]. }
  pose proof (payload6_nonneg) as Hp.
  destruct (between 194 223 (byte_val b0)) eqn:H2.
  { destruct r0 as [|b1 r1]; [discriminate |].
    destruct (continuation b1); [| discriminate].
    destruct (utf8_decode r1) as [t' |]; [| discriminate].
    intros [= <-] Hall. apply Forall_cons in Hall as [Hc _]. exfalso.
    pose proof (lead2_payload b0 H2). specialize (Hp b1).
    rewrite Z.shiftl_mul_pow2 in Hc by lia. lia. }
  destruct (between 224 239 (byte_val b0)) eqn:H3.
  { destruct r0 as [|b1 [|b2 r2]]; try discriminate.
    destruct (between _ _ (byte_val b1)) eqn:Hs; [| discriminate].
    destruct (continuation b2); [| discriminate].
    destruct (utf8_decode r2) as [t' |]; [| discriminate].
    intros [= <-] Hall. apply Forall_cons in Hall as [Hc _]. exfalso.
    pose proof (Hp b1). pose proof (Hp b2).
    rewrite !Z.shiftl_mul_pow2 in Hc by lia.
    destruct (Z.eq_dec (byte_val b0) 224) as [E | E].
    - rewrite E in Hs. change (second_lo 224) with 160 in Hs.
      pose proof (second_payload 160 (second_hi 224) b1 ltac:(lia)
                    ltac:(by vm_compute) Hs).
      assert (0 <= Z.land (byte_val b0) 15) by (apply Z.land_nonneg; lia).
      lia.
    - pose proof (lead3_payload b0 H3 E). lia. }
  destruct (between 240 244 (byte_val b0)) eqn:H4; [| discriminate].
  destruct r0 as [|b1 [|b2 [|b3 r3]]]; try discriminate.
  destruct (between _ _ (byte_val b1)) eqn:Hs; [| discriminate].
  destruct (continuation b2); [| discriminate].
  destruct (continuation b3); [| discriminate].
  destruct (utf8_decode r3) as [t' |]; [| discriminate].
  intros [= <-] Hall. apply Forall_cons in Hall as [Hc _]. exfalso.
  pose proof (Hp b1). pose proof (Hp b2). pose proof (Hp b3).
  rewrite !Z.shiftl_mul_pow2 in Hc by lia.
  destruct (Z.eq_dec (byte_val b0) 240) as [E | E].
  - rewrite E in Hs. change (second_lo 240) with 144 in Hs.
    pose proof (second_payload 144 (second_hi 240) b1 ltac:(lia)
                  ltac:(by vm_compute) Hs).
    assert (0 <= Z.land (byte_val b0) 7) by (apply Z.land_nonneg; lia).
    lia.
  - pose proof (lead4_payload b0 H4 E). lia.
Qed.

#[local] Instance byte_val_inj : Inj (=) (=) byte_val.
Proof.
  intros x y H. unfold byte_val in H. apply N2Z.inj in H.
  pose proof (Byte.of_to_N x) as Hx. rewrite H, Byte.of_to_N in Hx.
  congruence.
Qed.

(** The only datagram that decodes to a given ASCII literal of fewer than
    1024 characters is the literal itself. *)
Lemma decode_literal (data : bytes) (s : string) :
  (length (lit s) < bufsize)%nat ->
  Forall (fun c => c < 128) (str s) ->
  utf8_decode (take bufsize data) = Some (str s) -> data = lit s.
Proof.
  intros Hlen Hascii Hdec.
  apply (utf8_decode_ascii _ _ _ (le_n _)) in Hdec; [| done].
  unfold str in Hdec. apply (inj (fmap byte_val)) in Hdec.
  fold (lit s) in Hdec.
  assert (length (take bufsize data) < bufsize)%nat as Hshort
    by (rewrite <- Hdec; exact Hlen).
  rewrite length_take in Hshort.
  rewrite take_ge in Hdec by lia. done.
Qed.

(** ** Registration listener, further *)

Lemma decode_UNREGISTER :
  utf8_decode (take bufsize (lit "UNREGISTER")) = Some UNREGISTER.
Proof. reflexivity. Qed.

Lemma handle_registration_leave (net : reply_net) (cs : gset address) a :
  handle_registration net cs UNREGISTER a = (cs ∖ {[a]}, [], Next).
Proof.
  destruct (handle_registration_cases net cs UNREGISTER a)
    as [(H & _) | [(_ & _ & ->) | (-> & _ & Hu)]]; [discriminate | done |].
  do 2 f_equal. specialize (Hu eq_refl). set_solver.
Qed.

(** X1: UNREGISTER removes the sender from the registry and nobody else,
    is not answered, and changes nothing when the sender is not
    registered. *)
Theorem unregister_removes_only_sender (net : reply_net) (cs : gset address)
    (a : address) :
  let '(cs', out, fl) :=
    listen_for_clients_iter net cs (RecvDatagram (lit "UNREGISTER") a) in
  cs' = cs ∖ {[a]} /\ out = [] /\ fl = Next /\
  (a ∉ cs -> cs' = cs) /\
  (forall b, b <> a -> (b ∈ cs' <-> b ∈ cs)).
Proof.
  unfold listen_for_clients_iter. rewrite decode_UNREGISTER.
  rewrite handle_registration_leave. repeat split; set_solver.
Qed.

(** X2: REGISTER followed by UNREGISTER from an address that was not
    registered.  When the [sendto] of REGISTERED succeeds, the registry is
    afterwards as it was, with the one reply in between; when it times
    out, the same without a reply; when it raises another exception, the
    loop is left with the address registered, and the UNREGISTER is never
    received. *)
Theorem register_unregister_round_trip (net1 net2 : reply_net)
    (cs : gset address) (a : address) :
  a ∉ cs ->
  listen_for_clients cs
    [(net1, RecvDatagram (lit "REGISTER") a);
     (net2, RecvDatagram (lit "UNREGISTER") a)]
  = match net1 REGISTERED a with
    | Sent => (cs, [(REGISTERED, a)], Next)
    | TimedOut => (cs, [], Next)
    | Failed => ({[a]} ∪ cs, [], Break)
    end.
Proof.
  intros Ha. unfold listen_for_clients, listen_for_clients_iter.
  rewrite decode_REGISTER, decode_UNREGISTER.
  rewrite handle_registration_new by done.
  rewrite handle_registration_leave. unfold delivered.
  destruct (net1 REGISTERED a); simpl; [| | done].
  all: repeat f_equal; set_solver.
Qed.

Lemma register_unregister_round_trip_witness :
  listen_for_clients {[a1]}
    [(delivering, RecvDatagram (lit "REGISTER") a0);
     (delivering, RecvDatagram (lit "UNREGISTER") a0)]
  = ({[a1]}, [(REGISTERED, a0)], Next)
  /\ listen_for_clients {[a1]}
       [(refusing, RecvDatagram (lit "REGISTER") a0);
        (delivering, RecvDatagram (lit "UNREGISTER") a0)]
     = ({[a0]} ∪ {[a1]}, [], Break).
Proof.
  assert (a0 ∉ ({[a1]} : gset address)) as Ha
    by (apply not_elem_of_singleton; discriminate).
  split.
  - exact (register_unregister_round_trip delivering delivering {[a1]} a0 Ha).
  - exact (register_unregister_round_trip refusing delivering {[a1]} a0 Ha).
Defined.

(** X3: on the wire, the registration listener puts a reply on the wire if
    and only if the datagram is the eight bytes REGISTER from an address
    that is not registered and the [sendto] succeeds; it changes the
    registry only for that datagram, whatever its [sendto] does, and for
    the ten bytes UNREGISTER from a registered address; and a datagram
    makes it leave the loop if and only if it does not decode or it is
    that REGISTER and the [sendto] raises something else than a timeout. *)
Theorem registration_exact_bytes (net : reply_net) (cs : gset address)
    (data : bytes) (a : address) :
  let '(cs', out, fl) :=
    listen_for_clients_iter net cs (RecvDatagram data a) in
  (out <> [] <->
   data = lit "REGISTER" /\ a ∉ cs /\ net REGISTERED a = Sent) /\
  (cs' <> cs <->
   (data = lit "REGISTER" /\ a ∉ cs) \/ (data = lit "UNREGISTER" /\ a ∈ cs)) /\
  (fl = Break <->
   utf8_decode (take bufsize data) = None \/
   (data = lit "REGISTER" /\ a ∉ cs /\ net REGISTERED a = Failed)) /\
  fl <> Raise.
Proof.
  assert (utf8_decode (take bufsize data) = Some REGISTER ->
          data = lit "REGISTER") as Hreg.
  { apply decode_literal; [vm_compute; lia | repeat constructor]. }
  assert (utf8_decode (take bufsize data) = Some UNREGISTER ->
          data = lit "UNREGISTER") as Hun.
  { apply decode_literal; [vm_compute; lia | repeat constructor]. }
  unfold listen_for_clients_iter.
  destruct (utf8_decode (take bufsize data)) as [message |] eqn:Hdec.
  - destruct (handle_registration_cases net cs message a)
      as [(-> & Ha & ->) | [(-> & Ha & ->) | (-> & Hr & Hu)]].
    + specialize (Hreg eq_refl). unfold delivered.
      split; [| split; [| split]].
      * destruct (net REGISTERED a); split; try done.
        all: by intros (_ & _ & ?).
      * split; [intros _; by left | intros _; set_solver].
      * destruct (net REGISTERED a); simpl; split; try done.
        all: try (intros [? | (_ & _ & ?)]; done).
        intros _. by right.
      * by destruct (net REGISTERED a).
    + specialize (Hun eq_refl). split; [| split; [| split]]; [| | | done].
      * split; [done | intros [-> _]; discriminate].
      * split; [intros _; by right | intros _; set_solver].
      * split; [done | intros [? | [-> _]]; discriminate].
    + split; [| split; [| split]]; [| | | done].
      * split; [done |]. intros (-> & Ha & _).
        rewrite decode_REGISTER in Hdec. injection Hdec as <-. tauto.
      * split; [done |]. intros [[-> Ha] | [-> Ha]].
        -- rewrite decode_REGISTER in Hdec. injection Hdec as <-. tauto.
        -- rewrite decode_UNREGISTER in Hdec. injection Hdec as <-. tauto.
      * split; [done |]. intros [? | (-> & Ha & _)]; [done |].
        rewrite decode_REGISTER in Hdec. injection Hdec as <-. tauto.
  - split; [| split; [| split]]; [| | | done].
    + split; [done |]. intros [-> _]. by rewrite decode_REGISTER in Hdec.
    + split; [done |]. intros [[-> _] | [-> _]].
      * by rewrite decode_REGISTER in Hdec.
      * by rewrite decode_UNREGISTER in Hdec.
    + split; [by left | done].
Qed.

Lemma listen_for_clients_iter_sender (net : reply_net) (cs : gset address) ev :
  let '(cs', out, fl) := listen_for_clients_iter net cs ev in
  (forall b, b ∉ senders [ev] -> (b ∈ cs' <-> b ∈ cs)) /\
  Forall (fun r : sent => r.1 = REGISTERED /\ r.2 ∈ senders [ev]) out /\
  (length out <= length (senders [ev]))%nat.
Proof.
  destruct ev as [| data a |]; simpl;
    try (repeat split; first [done | constructor]).
  destruct (utf8_decode (take bufsize data)) as [message |];
    [| repeat split; first [done | simpl; lia | constructor]].
  destruct (handle_registration_cases net cs message a)
    as [(-> & Ha & ->) | [(-> & Ha & ->) | (-> & Hr & Hu)]];
    unfold delivered; try destruct (net REGISTERED a);
    repeat split; first [simpl; lia | set_solver | repeat constructor].
Qed.

(** X4: in any run of the registration listener a datagram bears on its
    sender alone: an address that sent nothing is in the registry
    afterwards exactly when it was before, every datagram sent is
    REGISTERED to an address that sent one, and there are no more replies
    than datagrams received. *)
Theorem registration_run_touches_only_senders (cs : gset address)
    (evs : list (reply_net * recv_event)) :
  let '(cs', out, fl) := listen_for_clients cs evs in
  (forall b, b ∉ senders (snd <$> evs) -> (b ∈ cs' <-> b ∈ cs)) /\
  Forall (fun r : sent => r.1 = REGISTERED /\ r.2 ∈ senders (snd <$> evs))
         out /\
  (length out <= length (senders (snd <$> evs)))%nat.
Proof.
  revert cs. induction evs as [|[net ev] rest IH]; intros cs.
  { simpl. repeat split; (done || constructor). }
  assert (senders (snd <$> (net, ev) :: rest)
          = senders [ev] ++ senders (snd <$> rest)) as Hs
    by (by destruct ev).
  rewrite Hs. clear Hs. cbn [listen_for_clients].
  pose proof (listen_for_clients_iter_sender net cs ev) as Hit.
  destruct (listen_for_clients_iter net cs ev) as [[cs1 out1] fl1].
  destruct Hit as (Hm1 & Ho1 & Hl1).
  destruct fl1.
  - specialize (IH cs1).
    destruct (listen_for_clients cs1 rest) as [[cs2 out2] fl2].
    destruct IH as (Hm2 & Ho2 & Hl2).
    repeat split.
    + intros Hb. apply Hm1; [set_solver |]. apply Hm2; [set_solver | done].
    + intros Hb. apply Hm2; [set_solver |]. apply Hm1; [set_solver | done].
    + apply Forall_app. split.
      * eapply Forall_impl; [exact Ho1 |]. intros r [? ?]. set_solver.
      * eapply Forall_impl; [exact Ho2 |]. intros r [? ?]. set_solver.
    + rewrite !length_app. lia.
  - repeat split.
    + intros Hb. apply Hm1; [set_solver | done].
    + intros Hb. apply Hm1; [set_solver | done].
    + eapply Forall_impl; [exact Ho1 |]. intros r [? ?]. set_solver.
    + rewrite length_app. lia.
  - repeat split.
    + intros Hb. apply Hm1; [set_solver | done].
    + intros Hb. apply Hm1; [set_solver | done].
    + eapply Forall_impl; [exact Ho1 |]. intros r [? ?]. set_solver.
    + rewrite length_app. lia.
Qed.

(** ** Control listener, further *)

Lemma second_field_last prefix f :
  colon ∉ prefix -> colon ∉ f ->
  split colon (prefix ++ colon :: f) !! 1%nat = Some f.
Proof.
  intros Hp Hf. rewrite split_app_sep by done. by rewrite split_no_sep.
Qed.

Lemma second_field_inner prefix f junk :
  colon ∉ prefix -> colon ∉ f ->
  split colon (prefix ++ colon :: f ++ colon :: junk) !! 1%nat = Some f.
Proof.
  intros Hp Hf. rewrite split_app_sep by done. by rewrite split_app_sep.
Qed.

Lemma literal_without_colon (s : string) :
  forallb (fun c => negb (c =? colon)) (str s) = true -> colon ∉ str s.
Proof.
  intros H Hin. rewrite forallb_forall in H.
  apply list_elem_of_In in Hin. specialize (H _ Hin).
  by rewrite Z.eqb_refl in H.
Qed.

(** X5: a BLUR command whose argument [int] accepts stores the argument
    clamped into [5, 50] and leaves colour and intensity as they were.
    BLUR_OK is then sent; when that [sendto] raises, BLUR_ERROR is sent in
    its place, with the new radius kept. *)
Theorem blur_command_clamps {float : Type}
    (py_float : text -> option float) (clamp_unit : float -> float)
    (ud : Z -> option Z) (net : reply_net)
    (st : settings float) (data : bytes) (addr : address)
    (decoded f : text) (n : Z) :
  utf8_decode (take bufsize data) = Some decoded ->
  strip decoded = str "BLUR:" ++ f ->
  py_int ud f = Some n ->
  listen_for_controls_iter py_float clamp_unit ud net st
    (RecvDatagram data addr)
  = (Settings (blush_color_rgb st) (blush_intensity st)
       (Z.max 5 (Z.min 50 n)),
     match net (lit "BLUR_OK") addr with
     | Sent => [(lit "BLUR_OK", addr)]
     | _ => delivered net (lit "BLUR_ERROR") addr
     end, Next)
  /\ 5 <= Z.max 5 (Z.min 50 n) <= 50
  /\ (5 <= n <= 50 -> Z.max 5 (Z.min 50 n) = n).
Proof.
  intros Hdec Hform Hn. split; [| lia].
  unfold listen_for_controls_iter. rewrite Hdec, Hform.
  unfold handle_command.
  change (startswith (str "BLUR:" ++ f) (str "COLOR:")) with false.
  change (startswith (str "BLUR:" ++ f) (str "INTENSITY:")) with false.
  rewrite startswith_app. cbv iota.
  unfold parse_blur.
  change (str "BLUR:" ++ f) with (str "BLUR" ++ colon :: f).
  rewrite second_field_last.
  - simpl. rewrite Hn. simpl fmap. by rewrite answer_stored.
  - by apply literal_without_colon.
  - by apply (py_int_no_separator ud f n colon Hn); left.
Qed.

Lemma blur_command_clamps_witness :
  listen_for_controls_iter no_float id some_decimals delivering
    initial_settings (RecvDatagram (lit "BLUR:900") a0)
  = (Settings (235, 148, 146) tt 50, [(lit "BLUR_OK", a0)], Next)
  /\ listen_for_controls_iter no_float id some_decimals
       (refusing_only (lit "BLUR_OK"))
       initial_settings (RecvDatagram (lit "BLUR:900") a0)
     = (Settings (235, 148, 146) tt 50, [(lit "BLUR_ERROR", a0)], Next).
Proof.
  split.
  - apply (blur_command_clamps no_float id some_decimals delivering
             initial_settings
             (lit "BLUR:900") a0 (str "BLUR:900") (str "900") 900);
      reflexivity.
  - apply (blur_command_clamps no_float id some_decimals
             (refusing_only (lit "BLUR_OK"))
             initial_settings
             (lit "BLUR:900") a0 (str "BLUR:900") (str "900") 900);
      reflexivity.
Defined.

Lemma answer_settings {float : Type} (net : reply_net) (st : settings float)
    stored ok error addr :
  (answer net st stored ok error addr).1 = default st stored.
Proof. unfold answer. destruct stored; [by destruct (net ok addr) | done]. Qed.

Lemma handle_command_blur {float : Type} (py_float : text -> option float)
    (clamp_unit : float -> float) (ud : Z -> option Z) (net : reply_net)
    (st : settings float) command addr :
  let st' := (handle_command py_float clamp_unit ud net st command addr).1 in
  blush_blur st' = blush_blur st \/ 5 <= blush_blur st' <= 50.
Proof.
  unfold handle_command.
  destruct (startswith command (str "COLOR:"));
    [| destruct (startswith command (str "INTENSITY:"));
       [| destruct (startswith command (str "BLUR:"))]];
    cbv zeta; rewrite ?answer_settings.
  - destruct (parse_color ud command); simpl; auto.
  - destruct (parse_intensity _ _ _ command); simpl; auto.
  - unfold parse_blur.
    destruct (split colon command !! 1%nat) as [arg |]; simpl; [| auto].
    destruct (py_int ud arg) as [blur |]; simpl; [right; lia | auto].
  - simpl. auto.
Qed.

(** X6: the blur radius stays within [5, 50] through any run of the
    control listener that starts within these bounds. *)
Theorem blur_stays_in_range {float : Type}
    (py_float : text -> option float) (clamp_unit : float -> float)
    (ud : Z -> option Z)
    (evs : list (reply_net * recv_event)) (st : settings float) :
  5 <= blush_blur st <= 50 ->
  5 <= blush_blur (listen_for_controls py_float clamp_unit ud st evs).1.1
    <= 50.
Proof.
  revert st. induction evs as [|[net ev] rest IH]; intros st Hst; [done |].
  cbn [listen_for_controls].
  assert (5 <= blush_blur
                 (listen_for_controls_iter py_float clamp_unit ud net st ev).1.1
          <= 50 /\
          (listen_for_controls_iter py_float clamp_unit ud net st ev).2 = Next)
    as [Hit Hfl].
  { destruct ev as [| data addr |]; simpl; try done.
    destruct (utf8_decode (take bufsize data)) as [decoded |]; [| done].
    pose proof (handle_command_blur py_float clamp_unit ud net st
                  (strip decoded) addr) as Hb.
    destruct (handle_command _ _ _ _ _ _ _) as [st' out]. simpl in *.
    split; [lia | done]. }
  destruct (listen_for_controls_iter py_float clamp_unit ud net st ev)
    as [[st1 out1] fl1]. simpl in Hit, Hfl. subst fl1.
  specialize (IH st1 Hit).
  by destruct (listen_for_controls py_float clamp_unit ud st1 rest)
    as [[st2 out2] fl2].
Qed.

Lemma blur_stays_in_range_witness :
  5 <= blush_blur
         (listen_for_controls no_float id some_decimals initial_settings
            [(delivering, RecvDatagram (lit "BLUR:-3") a0);
             (delivering, RecvTimeout);
             (refusing, RecvDatagram (lit "BLUR:x") a1)]).1.1 <= 50.
Proof.
  apply (blur_stays_in_range no_float id some_decimals
           [(delivering, RecvDatagram (lit "BLUR:-3") a0);
            (delivering, RecvTimeout);
            (refusing, RecvDatagram (lit "BLUR:x") a1)] initial_settings).
  simpl. lia.
Defined.

Lemma listen_for_controls_iter_next {float : Type}
    (py_float : text -> option float) (clamp_unit : float -> float)
    (ud : Z -> option Z) (net : reply_net) (st : settings float) ev :
  (listen_for_controls_iter py_float clamp_unit ud net st ev).2 = Next.
Proof.
  destruct ev as [| data addr |]; simpl; try done.
  destruct (utf8_decode (take bufsize data)); [| done].
  by destruct (handle_command _ _ _ _ _ _ _).
Qed.

(** X7: nothing ends the control loop from inside: every event of a run
    is served, so a run over two stretches of events is the run over the
    first followed by the run over the second from the settings the first
    left. *)
Theorem control_run_composes {float : Type}
    (py_float : text -> option float) (clamp_unit : float -> float)
    (ud : Z -> option Z)
    (evs1 evs2 : list (reply_net * recv_event)) (st : settings float) :
  let '(st1, out1, fl1) :=
    listen_for_controls py_float clamp_unit ud st evs1 in
  let '(st2, out2, fl2) :=
    listen_for_controls py_float clamp_unit ud st1 evs2 in
  fl1 = Next /\ fl2 = Next /\
  listen_for_controls py_float clamp_unit ud st (evs1 ++ evs2)
  = (st2, out1 ++ out2, Next).
Proof.
  revert st. induction evs1 as [|[net ev] rest IH]; intros st.
  - cbn [listen_for_controls app].
    assert (forall evs (s : settings float),
              (listen_for_controls py_float clamp_unit ud s evs).2 = Next)
      as Hn.
    { induction evs as [|[n e] r IHr]; intros s; [done |].
      cbn [listen_for_controls].
      pose proof (listen_for_controls_iter_next py_float clamp_unit ud n s e)
        as He.
      destruct (listen_for_controls_iter _ _ _ n s e) as [[s1 o1] f1].
      simpl in He. subst f1. specialize (IHr s1).
      by destruct (listen_for_controls _ _ _ s1 r) as [[s2 o2] f2]. }
    specialize (Hn evs2 st).
    destruct (listen_for_controls _ _ _ st evs2) as [[st2 out2] fl2].
    simpl in Hn. by subst fl2.
  - cbn [listen_for_controls app].
    pose proof (listen_for_controls_iter_next py_float clamp_unit ud net st ev)
      as He.
    destruct (listen_for_controls_iter _ _ _ net st ev) as [[s1 o1] f1].
    simpl in He. subst f1. specialize (IH s1).
    destruct (listen_for_controls _ _ _ s1 rest) as [[st1 out1] fl1].
    destruct (listen_for_controls _ _ _ st1 evs2) as [[st2 out2] fl2].
    destruct IH as (-> & -> & ->). by rewrite app_assoc.
Qed.

Lemma answer_shape {float : Type} (net : reply_net) (st : settings float)
    stored ok error addr :
  let '(st', out) := answer net st stored ok error addr in
  (out = [] \/ out = [(ok, addr)] \/ out = [(error, addr)]) /\
  (net ok addr = Sent -> net error addr = Sent -> out <> []).
Proof.
  unfold answer, delivered.
  destruct stored; destruct (net ok addr); destruct (net error addr);
    repeat split; auto; done.
Qed.

(** X8: the control listener sends at most one datagram per datagram
    received, one of its six tokens, to the sender, and it goes on to the
    next pass.  It answers or changes a setting only when the data decodes
    and the stripped text starts with COLOR:, INTENSITY: or BLUR:.  On a
    network that takes each of the six tokens it answers exactly then, and
    a datagram that is not answered changes nothing. *)
Theorem control_reply_shape {float : Type}
    (py_float : text -> option float) (clamp_unit : float -> float)
    (ud : Z -> option Z) (net : reply_net)
    (st : settings float) (data : bytes) (addr : address) :
  let '(st', out, fl) :=
    listen_for_controls_iter py_float clamp_unit ud net st
      (RecvDatagram data addr) in
  let recognised :=
    exists decoded,
      utf8_decode (take bufsize data) = Some decoded /\
      startswith (strip decoded) (str "COLOR:")
      || startswith (strip decoded) (str "INTENSITY:")
      || startswith (strip decoded) (str "BLUR:") = true in
  (out = [] \/ exists tok, tok ∈ control_tokens /\ out = [(tok, addr)]) /\
  fl = Next /\
  (out <> [] \/ st' <> st -> recognised) /\
  ((forall tok, tok ∈ control_tokens -> net tok addr = Sent) ->
   (out <> [] <-> recognised) /\ (out = [] -> st' = st)).
Proof.
  unfold listen_for_controls_iter.
  destruct (utf8_decode (take bufsize data)) as [decoded |].
  2: { cbv zeta. split; [by left |]. split; [done |].
       split; [by intros [? | ?] |]. intros _. split; [| done].
       split; [done |]. by intros (d & ? & _). }
  unfold handle_command.
  destruct (startswith (strip decoded) (str "COLOR:")) eqn:Hc;
    [| destruct (startswith (strip decoded) (str "INTENSITY:")) eqn:Hi;
       [| destruct (startswith (strip decoded) (str "BLUR:")) eqn:Hb]].
  4: { cbv zeta. split; [by left |]. split; [done |].
       split; [by intros [? | ?] |]. intros _. split; [| done].
       split; [done |]. intros (d & [= <-] & H).
       by rewrite Hc, Hi, Hb in H. }
  all: match goal with
       | |- context [answer ?n ?s ?stored ?ok ?error ?a] =>
         pose proof (answer_shape n s stored ok error a) as Hshape;
         destruct (answer n s stored ok error a) as [st' out];
         assert (ok ∈ control_tokens) as Hok
           by (unfold control_tokens; set_solver);
         assert (error ∈ control_tokens) as Herr
           by (unfold control_tokens; set_solver)
       end.
  all: destruct Hshape as (Hout & Hsent).
  all: cbv zeta.
  all: assert (exists d, Some decoded = Some d /\
                 startswith (strip d) (str "COLOR:")
                 || startswith (strip d) (str "INTENSITY:")
                 || startswith (strip d) (str "BLUR:") = true) as Hex
         by (exists decoded; by rewrite ?Hc, ?Hi, ?Hb).
  all: split; [destruct Hout as [-> | [-> | ->]]; eauto |].
  all: split; [done |].
  all: split; [by intros _ |].
  all: intros Hnet; pose proof (Hnet _ Hok) as H1;
       pose proof (Hnet _ Herr) as H2.
  all: split; [split; [by intros _ | intros _; by apply Hsent] |].
  all: intros ->; by destruct (Hsent H1 H2).
Qed.

(** X9: only the text between the first and the second colon of a COLOR
    command is read: whatever follows a second colon is ignored.  The
    reply is COLOR_OK, or COLOR_ERROR when the [sendto] of COLOR_OK
    raises. *)
Theorem color_ignores_later_segments {float : Type}
    (py_float : text -> option float) (clamp_unit : float -> float)
    (ud : Z -> option Z) (net : reply_net)
    (st : settings float) (data : bytes) (addr : address)
    (decoded fr fg fb junk : text) (r g b : Z) :
  utf8_decode (take bufsize data) = Some decoded ->
  strip decoded
  = str "COLOR:" ++ fr ++ comma :: fg ++ comma :: fb ++ colon :: junk ->
  py_int ud fr = Some r -> py_int ud fg = Some g -> py_int ud fb = Some b ->
  listen_for_controls_iter py_float clamp_unit ud net st
    (RecvDatagram data addr)
  = (Settings (r, g, b) (blush_intensity st) (blush_blur st),
     match net (lit "COLOR_OK") addr with
     | Sent => [(lit "COLOR_OK", addr)]
     | _ => delivered net (lit "COLOR_ERROR") addr
     end, Next).
Proof.
  intros Hdec Hform Hr Hg Hb.
  pose proof (py_int_no_separator _ _ _ colon Hr (or_introl eq_refl)) as Hr1.
  pose proof (py_int_no_separator _ _ _ colon Hg (or_introl eq_refl)) as Hg1.
  pose proof (py_int_no_separator _ _ _ colon Hb (or_introl eq_refl)) as Hb1.
  pose proof (py_int_no_separator _ _ _ comma Hr (or_intror eq_refl)) as Hr2.
  pose proof (py_int_no_separator _ _ _ comma Hg (or_intror eq_refl)) as Hg2.
  pose proof (py_int_no_separator _ _ _ comma Hb (or_intror eq_refl)) as Hb2.
  unfold listen_for_controls_iter. rewrite Hdec, Hform.
  unfold handle_command. rewrite startswith_app. unfold parse_color.
  change (str "COLOR:" ++ fr ++ comma :: fg ++ comma :: fb ++ colon :: junk)
    with (str "COLOR" ++ colon
          :: fr ++ comma :: fg ++ comma :: fb ++ colon :: junk).
  replace (fr ++ comma :: fg ++ comma :: fb ++ colon :: junk)
    with ((fr ++ comma :: fg ++ comma :: fb) ++ colon :: junk)
    by (rewrite <- app_assoc; simpl; by rewrite <- app_assoc).
  rewrite (second_field_inner (str "COLOR") (fr ++ comma :: fg ++ comma :: fb)).
  - simpl. rewrite split_app_sep by done. rewrite split_app_sep by done.
    rewrite split_no_sep by done. simpl. rewrite Hr, Hg, Hb. simpl.
    by destruct (net (lit "COLOR_OK") addr).
  - by apply literal_without_colon.
  - rewrite !not_elem_of_app, !not_elem_of_cons, !not_elem_of_app,
      !not_elem_of_cons. unfold colon, comma in Hr1, Hg1, Hb1 |- *.
    repeat split; auto; lia.
Qed.

Lemma color_ignores_later_segments_witness :
  listen_for_controls_iter no_float id some_decimals delivering
    initial_settings (RecvDatagram (lit "COLOR:1,2,3:INTENSITY:0.9") a0)
  = (Settings (1, 2, 3) tt 15, [(lit "COLOR_OK", a0)], Next).
Proof.
  apply (color_ignores_later_segments no_float id some_decimals delivering
           initial_settings
           (lit "COLOR:1,2,3:INTENSITY:0.9") a0
           (str "COLOR:1,2,3:INTENSITY:0.9")
           (str "1") (str "2") (str "3") (str "INTENSITY:0.9") 1 2 3);
    reflexivity.
Defined.

Lemma length_split sep s : length (split sep s) = S (occurrences sep s).
Proof.
  unfold occurrences. induction s as [|c r IH]; [done |].
  rewrite filter_cons. cbn [split].
  destruct (Z.eqb_spec c sep) as [-> | Hne].
  - rewrite decide_True by done. cbn [length]. by rewrite IH.
  - rewrite decide_False by done.
    destruct (split sep r) as [|f fs]; cbn [length] in *; lia.
Qed.

(** X10: a COLOR command whose argument does not have exactly two commas
    (three fields) changes nothing, and the one [sendto] made for it is
    that of COLOR_ERROR. *)
Theorem color_needs_three_fields {float : Type}
    (py_float : text -> option float) (clamp_unit : float -> float)
    (ud : Z -> option Z) (net : reply_net)
    (st : settings float) (data : bytes) (addr : address)
    (decoded rest : text) :
  utf8_decode (take bufsize data) = Some decoded ->
  strip decoded = str "COLOR:" ++ rest ->
  colon ∉ rest ->
  occurrences comma rest <> 2%nat ->
  listen_for_controls_iter py_float clamp_unit ud net st
    (RecvDatagram data addr)
  = (st, delivered net (lit "COLOR_ERROR") addr, Next).
Proof.
  intros Hdec Hform Hcolon Hcount.
  unfold listen_for_controls_iter. rewrite Hdec, Hform.
  unfold handle_command. rewrite startswith_app. unfold parse_color.
  change (str "COLOR:" ++ rest) with (str "COLOR" ++ colon :: rest).
  rewrite second_field_last; [| by apply literal_without_colon | done].
  pose proof (length_split comma rest) as Hlen.
  simpl. destruct (split comma rest) as [|x [|y [|z [|w l]]]]; try done.
  simpl in Hlen. lia.
Qed.

Lemma color_needs_three_fields_witness :
  listen_for_controls_iter no_float id some_decimals delivering
    initial_settings (RecvDatagram (lit "COLOR:10,20") a0)
  = (initial_settings, [(lit "COLOR_ERROR", a0)], Next).
Proof.
  apply (color_needs_three_fields no_float id some_decimals delivering
           initial_settings
           (lit "COLOR:10,20") a0 (str "COLOR:10,20") (str "10,20")).
  - reflexivity.
  - reflexivity.
  - vm_compute. set_solver.
  - vm_compute. lia.
Defined.

(** X11: a command changes at most the one setting its prefix names: the
    colour changes only under COLOR:, the intensity only under INTENSITY:,
    the blur only under BLUR:, and never two of them at once. *)
Theorem command_touches_own_field {float : Type}
    (py_float : text -> option float) (clamp_unit : float -> float)
    (ud : Z -> option Z) (net : reply_net)
    (st : settings float) (command : text) (addr : address) :
  let st' := (handle_command py_float clamp_unit ud net st command addr).1 in
  (blush_color_rgb st' <> blush_color_rgb st ->
   startswith command (str "COLOR:") = true) /\
  (blush_intensity st' <> blush_intensity st ->
   startswith command (str "INTENSITY:") = true) /\
  (blush_blur st' <> blush_blur st ->
   startswith command (str "BLUR:") = true) /\
  ((blush_color_rgb st' = blush_color_rgb st /\
    blush_intensity st' = blush_intensity st) \/
   (blush_color_rgb st' = blush_color_rgb st /\
    blush_blur st' = blush_blur st) \/
   (blush_intensity st' = blush_intensity st /\
    blush_blur st' = blush_blur st)).
Proof.
  unfold handle_command, answer.
  destruct (startswith command (str "COLOR:"));
    [| destruct (startswith command (str "INTENSITY:"));
       [| destruct (startswith command (str "BLUR:"))]].
  - destruct (parse_color ud command); [destruct (net _ addr) |];
      simpl; repeat split; auto; done.
  - destruct (parse_intensity _ _ _ command); [destruct (net _ addr) |];
      simpl; repeat split; auto; done.
  - destruct (parse_blur ud command); [destruct (net _ addr) |];
      simpl; repeat split; auto; done.
  - simpl. repeat split; auto; done.
Qed.

(** ** Broadcast loop, further *)

Lemma send_packets_prefix fails seq total data ps (a : address) idxs :
  exists n,
    (n <= length idxs)%nat /\
    (send_packets fails seq total data ps a idxs).1
    = (fun i => (datagram seq total data ps i, a)) <$> take n idxs /\
    ((send_packets fails seq total data ps a idxs).2 = false
     <-> n = length idxs).
Proof.
  induction idxs as [|i rest IH]; simpl.
  - exists 0%nat. by repeat split.
  - destruct (udp_packet seq total data ps i) as [udp |] eqn:Hu.
    + destruct (fails a i).
      * exists 0%nat. simpl. repeat split; (lia || done).
      * destruct IH as (n & Hn & Hout & Hr).
        destruct (send_packets fails seq total data ps a rest)
          as [out raised]. simpl in *.
        apply udp_packet_Some in Hu as (_ & _ & _ & ->).
        exists (S n). simpl. rewrite Hout. repeat split; try lia.
        -- intros H. apply Hr in H. lia.
        -- intros H. apply Hr. lia.
    + exists 0%nat. simpl. repeat split; (lia || done).
Qed.

Lemma take_seqZ (n : nat) m :
  (n <= Z.to_nat m)%nat -> take n (seqZ 0 m) = seqZ 0 (Z.of_nat n).
Proof.
  intros H. destruct n as [|n]; [by rewrite take_0 |].
  replace m with (Z.of_nat (S n) + (m - Z.of_nat (S n))) by lia.
  rewrite seqZ_app by lia. rewrite take_app_length'; [done |].
  rewrite length_seqZ. lia.
Qed.

(** X12: whatever the network does, what a client is sent of one frame
    is an initial segment of the packets, in index order and without
    gaps, and the client stays registered exactly when the segment is the
    whole frame. *)
Theorem client_gets_initial_segment (fails : network) (s : server)
    (data : bytes) (b : address) (total : Z) :
  let seq := sequence_number s + 1 in
  let ps := max_packet_size s - header_size in
  b ∈ clients s ->
  ceil_div (Z.of_nat (length data)) ps = Some total ->
  let '(s', out, fl) := send_frames_iter fails s (Encoded data) in
  exists n,
    0 <= n <= Z.max 0 total /\
    sent_to b out = datagram seq total data ps <$> seqZ 0 n /\
    (b ∈ clients s' <-> n = Z.max 0 total).
Proof.
  intros seq ps Hb Hc. unfold send_frames_iter. fold seq ps. rewrite Hc.
  pose proof (fan_out_registry fails seq total data ps (elements (clients s))
                (clients s) b) as Hreg.
  pose proof (fan_out_sent_to fails seq total data ps (elements (clients s))
                (clients s) b (NoDup_elements _)) as Hsent.
  destruct (fan_out fails seq total data ps (elements (clients s)) (clients s))
    as [registry out]. simpl in Hreg, Hsent |- *.
  rewrite decide_True in Hsent by (by apply elem_of_elements).
  destruct (send_packets_prefix fails seq total data ps b (py_range total))
    as (n & Hn & Hout & Hr).
  unfold py_range in Hn, Hr. rewrite length_seqZ in Hn, Hr.
  exists (Z.of_nat n). split; [lia |]. split.
  - rewrite Hsent, Hout. unfold py_range.
    rewrite take_seqZ by lia. apply fst_datagrams.
  - rewrite Hreg, elem_of_elements. split.
    + intros [_ Hnot].
      destruct (send_packets fails seq total data ps b (seqZ 0 total)).2 eqn:E.
      * exfalso. apply Hnot. by split.
      * assert (n = Z.to_nat total) by (by apply Hr). lia.
    + intros Hall. split; [done |]. intros [_ Hraised].
      assert ((send_packets fails seq total data ps b (seqZ 0 total)).2
              = false) as E by (apply Hr; lia).
      unfold py_range in Hraised. congruence.
Qed.

Lemma client_gets_initial_segment_witness :
  let '(s', out, fl) :=
    send_frames_iter a0_fails_at_1 (Server {[a0; a1]} 0 15)
                     (Encoded (lit "abcdefg")) in
  exists n, 0 <= n <= 3 /\
    sent_to a0 out = datagram 1 3 (lit "abcdefg") 3 <$> seqZ 0 n /\
    (a0 ∈ clients s' <-> n = 3).
Proof.
  pose proof (client_gets_initial_segment a0_fails_at_1
                (Server {[a0; a1]} 0 15) (lit "abcdefg") a0 3) as H.
  cbv zeta in H.
  destruct (send_frames_iter a0_fails_at_1 (Server {[a0; a1]} 0 15)
              (Encoded (lit "abcdefg"))) as [[s' out] fl].
  apply H; [simpl; set_solver | reflexivity].
Defined.



(** X14: a client to which no send fails can rebuild the frame: with a
    maximum datagram size above the header size and header fields that fit
    in 32 bits, the datagrams it is sent, each without its first twelve
    bytes, put together in the order sent, are the encoded frame. *)
Theorem frame_reassembles (fails : network) (s : server) (data : bytes)
    (b : address) :
  header_size < max_packet_size s ->
  u32 (sequence_number s + 1) ->
  Z.of_nat (length data) < 4294967296 ->
  b ∈ clients s ->
  (forall i, fails b i = false) ->
  concat (drop 12 <$> sent_to b (send_frames_iter fails s (Encoded data)).1.2)
  = data.
Proof.
  intros HM Hs HL Hb Hok.
  destruct (ceil_div_pos (Z.of_nat (length data))
              (max_packet_size s - header_size) ltac:(lia) ltac:(lia))
    as (total & Hc & Ht & Hbound & _).
  assert (u32 total) as Hu by (unfold u32; nia).
  rewrite (served_client fails s data b total Hc Hs Hu Hb Hok).
  rewrite <- list_fmap_compose, drop_header.
  unfold py_range. rewrite <- (Z2Nat.id total) by lia.
  rewrite concat_chunks by lia. apply take_ge. nia.
Qed.

Lemma frame_reassembles_witness :
  concat (drop 12 <$> sent_to a1
            (send_frames_iter a0_fails_at_1 (Server {[a0; a1]} 0 15)
               (Encoded (lit "abcdefg"))).1.2)
  = lit "abcdefg".
Proof.
  apply (frame_reassembles a0_fails_at_1 (Server {[a0; a1]} 0 15)
           (lit "abcdefg") a1).
  - reflexivity.
  - unfold u32. simpl. lia.
  - simpl. lia.
  - simpl. set_solver.
  - intros i. unfold a0_fails_at_1. by rewrite bool_decide_eq_false_2.
Defined.

(** X15: every packet but the last carries a full payload of the maximum
    datagram size less twelve bytes, and the last carries the remainder,
    which is not empty. *)
Theorem chunk_sizes (data : bytes) (ps total : Z) :
  0 < ps ->
  ceil_div (Z.of_nat (length data)) ps = Some total ->
  (forall i, 0 <= i < total - 1 ->
     Z.of_nat (length (chunk data ps i)) = ps) /\
  (0 < total ->
   Z.of_nat (length (chunk data ps (total - 1)))
   = Z.of_nat (length data) - (total - 1) * ps /\
   0 < Z.of_nat (length (chunk data ps (total - 1))) <= ps).
Proof.
  intros Hps Hc.
  destruct (ceil_div_pos (Z.of_nat (length data)) ps ltac:(lia) Hps)
    as (t & Hc' & Ht & Hb & _).
  rewrite Hc in Hc'. injection Hc' as <-.
  split.
  - intros i Hi. rewrite chunk_take_drop by lia.
    rewrite length_take, length_drop. nia.
  - intros Hpos. rewrite chunk_take_drop by lia.
    rewrite length_take, length_drop. nia.
Qed.

Lemma chunk_sizes_witness :
  Z.of_nat (length (chunk (lit "abcdefg") 3 0)) = 3 /\
  Z.of_nat (length (chunk (lit "abcdefg") 3 2)) = 1.
Proof.
  destruct (chunk_sizes (lit "abcdefg") 3 3 eq_refl eq_refl) as [H1 H2].
  split; [apply H1; lia | apply H2; lia].
Defined.

Lemma length_concat_datagrams seq total data ps (l : list Z) :
  length (concat (datagram seq total data ps <$> l))
  = (12 * length l + length (concat (chunk data ps <$> l)))%nat.
Proof.
  induction l as [|i l IH]; [done |].
  rewrite !fmap_cons. cbn [concat]. rewrite !length_app, IH.
  unfold datagram. rewrite !length_app, !length_be32. cbn [length]. lia.
Qed.

(** X16: a client to which no send fails is sent, for a frame of L bytes
    in n packets, L + 12 n bytes in all: the payload once and one header
    per packet. *)
Theorem bytes_on_wire (fails : network) (s : server) (data : bytes)
    (b : address) (total : Z) :
  header_size < max_packet_size s ->
  ceil_div (Z.of_nat (length data)) (max_packet_size s - header_size)
  = Some total ->
  u32 (sequence_number s + 1) -> u32 total ->
  b ∈ clients s ->
  (forall i, fails b i = false) ->
  Z.of_nat (length (concat
    (sent_to b (send_frames_iter fails s (Encoded data)).1.2)))
  = Z.of_nat (length data) + 12 * total.
Proof.
  intros HM Hc Hs Hu Hb Hok.
  rewrite (served_client fails s data b total Hc Hs Hu Hb Hok).
  destruct (ceil_div_pos (Z.of_nat (length data))
              (max_packet_size s - header_size) ltac:(lia) ltac:(lia))
    as (t & Hc' & Ht & Hbound & _).
  rewrite Hc in Hc'. injection Hc' as <-.
  rewrite length_concat_datagrams. unfold py_range. rewrite length_seqZ.
  rewrite <- (Z2Nat.id total) at 2 by lia.
  rewrite concat_chunks by lia. rewrite take_ge by nia. lia.
Qed.

Lemma bytes_on_wire_witness :
  Z.of_nat (length (concat
    (sent_to a1 (send_frames_iter a0_fails_at_1 (Server {[a0; a1]} 0 15)
                   (Encoded (lit "abcdefg"))).1.2)))
  = 7 + 12 * 3.
Proof.
  apply (bytes_on_wire a0_fails_at_1 (Server {[a0; a1]} 0 15)
           (lit "abcdefg") a1 3).
  - reflexivity.
  - reflexivity.
  - unfold u32. simpl. lia.
  - unfold u32. lia.
  - simpl. set_solver.
  - intros i. unfold a0_fails_at_1. by rewrite bool_decide_eq_false_2.
Defined.

Lemma pack_I_out_of_range v : ~ u32 v -> pack_I v = None.
Proof.
  intros H. destruct (pack_I v) as [h |] eqn:E; [| done].
  apply pack_I_Some in E as [? _]. by destruct H.
Qed.

(** X17: once the counter has left the range of 32 bits, a frame that is
    not empty reaches nobody: [struct.pack] refuses the header for the
    first packet of each client, nothing is sent, and every client of the
    snapshot is dropped from the registry. *)
Theorem sequence_overflow_drops_everyone (fails : network) (s : server)
    (data : bytes) :
  header_size < max_packet_size s ->
  data <> [] ->
  ~ u32 (sequence_number s + 1) ->
  send_frames_iter fails s (Encoded data)
  = (Server ∅ (sequence_number s + 1) (max_packet_size s), [], Next).
Proof.
  intros HM Hdata Hseq.
  destruct (ceil_div_pos (Z.of_nat (length data))
              (max_packet_size s - header_size) ltac:(lia) ltac:(lia))
    as (total & Hc & Ht & Hbound & _).
  assert (0 < total) as Hpos.
  { destruct data; [done |]. simpl length in Hbound. nia. }
  unfold send_frames_iter. rewrite Hc.
  set (seq := sequence_number s + 1) in *.
  set (ps := max_packet_size s - header_size) in *.
  assert (forall a, send_packets fails seq total data ps a (py_range total)
                    = ([], true)) as Hinner.
  { intros a. unfold py_range. rewrite seqZ_cons by lia. simpl.
    unfold udp_packet, struct_pack_III.
    by rewrite (pack_I_out_of_range seq Hseq). }
  pose proof (fan_out_registry fails seq total data ps (elements (clients s))
                (clients s)) as Hreg.
  pose proof (fan_out_elem fails seq total data ps (elements (clients s))
                (clients s)) as Helem.
  destruct (fan_out fails seq total data ps (elements (clients s)) (clients s))
    as [registry out]. simpl in Hreg, Helem.
  assert (registry = ∅) as ->.
  { apply set_eq. intros x. rewrite Hreg, Hinner, elem_of_elements.
    set_solver. }
  assert (out = []) as ->.
  { destruct out as [|[d a] out]; [done |].
    destruct (Helem d a ltac:(left)) as [_ Hin].
    rewrite Hinner in Hin. by apply elem_of_nil in Hin. }
  done.
Qed.

Lemma sequence_overflow_drops_everyone_witness :
  send_frames_iter reliable (Server {[a0; a1]} 4294967295 32768)
                   (Encoded (lit "abcdefg"))
  = (Server ∅ 4294967296 32768, [], Next).
Proof.
  apply (sequence_overflow_drops_everyone reliable
           (Server {[a0; a1]} 4294967295 32768) (lit "abcdefg")).
  - reflexivity.
  - discriminate.
  - unfold u32. simpl. lia.
Defined.

(** X18: with a maximum datagram size equal to the header size, the
    first encoded frame ends the broadcast loop with the division by zero
    of line 289: the counter has already grown, nothing is sent, the
    registry is as it was, and the iterations after it are not run. *)
Theorem header_sized_packets_raise (fails : network) (s : server)
    (data : bytes) (rest : list (network * capture)) :
  max_packet_size s = header_size ->
  send_frames s ((fails, Encoded data) :: rest)
  = (Server (clients s) (sequence_number s + 1) (max_packet_size s),
     [], Raise).
Proof.
  intros HM. cbn [send_frames]. unfold send_frames_iter, ceil_div.
  rewrite HM, Z.sub_diag. reflexivity.
Qed.

Lemma header_sized_packets_raise_witness :
  send_frames (Server {[a0]} 0 12)
    [(reliable, Encoded (lit "abc")); (reliable, Encoded (lit "def"))]
  = (Server {[a0]} 1 12, [], Raise).
Proof.
  exact (header_sized_packets_raise reliable (Server {[a0]} 0 12) (lit "abc")
           [(reliable, Encoded (lit "def"))] eq_refl).
Defined.

(** X19: with a maximum datagram size below the header size, the payload
    size is negative, the number of packets is not positive, and a frame
    is dropped in silence: the counter grows, nothing is sent, nobody is
    unregistered and the loop goes on. *)
Theorem undersized_packets_send_nothing (fails : network) (s : server)
    (data : bytes) :
  max_packet_size s < header_size ->
  send_frames_iter fails s (Encoded data)
  = (Server (clients s) (sequence_number s + 1) (max_packet_size s),
     [], Next).
Proof.
  intros HM. unfold send_frames_iter, ceil_div.
  set (ps := max_packet_size s - header_size).
  assert (ps < 0) as Hps by (unfold ps; lia).
  destruct (Z.eqb_spec ps 0); [lia |].
  rewrite fan_out_nothing; [done |].
  replace ps with (- - ps) by lia. rewrite Z.div_opp_opp by lia.
  pose proof (Z.div_pos (Z.of_nat (length data)) (- ps) ltac:(lia) ltac:(lia)).
  lia.
Qed.

Lemma undersized_packets_send_nothing_witness :
  send_frames_iter reliable (Server {[a0]} 0 8) (Encoded (lit "abcdefg"))
  = (Server {[a0]} 1 8, [], Next).
Proof.
  exact (undersized_packets_send_nothing reliable (Server {[a0]} 0 8)
           (lit "abcdefg") eq_refl).
Defined.

(** ** Cheek contour *)

Lemma contour_points_cases {landmark : Type}
    (pixel : landmark -> Z -> Z -> option (Z * Z)) (landmarks : list landmark)
    (w h : Z) (indices : list Z) :
  Forall (fun i => 0 <= i) indices ->
  match contour_points pixel landmarks w h indices with
  | inl e =>
    e = ConversionError /\
    exists lm, lm ∈ landmarks /\ pixel lm w h = None
  | inr points =>
    length points
    = length (filter (fun i => i < Z.of_nat (length landmarks)) indices) /\
    Forall (fun p => exists lm, lm ∈ landmarks /\ pixel lm w h = Some p)
           points
  end.
Proof.
  induction 1 as [|i rest Hi _ IH]; [by split |].
  cbn [contour_points]. rewrite filter_cons.
  destruct (Z.ltb_spec i (Z.of_nat (length landmarks))) as [Hlt | Hge].
  - rewrite decide_True by done.
    destruct (lookup_lt_is_Some_2 landmarks (Z.to_nat i) ltac:(lia))
      as [lm Hlm].
    rewrite Hlm. apply list_elem_of_lookup_2 in Hlm.
    destruct (pixel lm w h) as [p |] eqn:Hp; [| by eauto].
    destruct (contour_points pixel landmarks w h rest) as [e | points];
      [done |].
    destruct IH as [Hlen Hall]. split; [simpl; by rewrite Hlen |].
    constructor; eauto.
  - by rewrite decide_False by lia.
Qed.

(** X20: [get_cheek_contour_points] never indexes outside the landmark
    list.  When every landmark is mapped to a pixel with coordinates in
    the range of [np.int32], it returns one point for each listed index
    below the number of landmarks, so at most twelve points, all twelve
    for a mesh of at least 430 landmarks and none for a mesh of at most
    47; and whenever it returns, it is with that many points, every
    coordinate in that range. *)
Theorem cheek_contour_in_bounds {landmark : Type}
    (pixel : landmark -> Z -> Z -> option (Z * Z)) (landmarks : list landmark)
    (w h : Z) (is_left : bool) :
  let indices := if is_left then left_cheek_indices else right_cheek_indices in
  let expected (points : list (Z * Z)) :=
    length points
    = length (filter (fun i => i < Z.of_nat (length landmarks)) indices) /\
    (length points <= 12)%nat /\
    (430 <= length landmarks -> length points = 12)%nat /\
    (length landmarks <= 47 -> points = [])%nat /\
    Forall (fun p : Z * Z => int32 p.1 = true /\ int32 p.2 = true) points in
  get_cheek_contour_points pixel landmarks w h is_left <> inl IndexError /\
  ((forall lm, lm ∈ landmarks ->
      exists p, pixel lm w h = Some p /\
                int32 p.1 = true /\ int32 p.2 = true) ->
   exists points,
     get_cheek_contour_points pixel landmarks w h is_left = inr points /\
     expected points) /\
  (forall points,
     get_cheek_contour_points pixel landmarks w h is_left = inr points ->
     expected points).
Proof.
  intros indices expected. unfold get_cheek_contour_points. fold indices.
  assert (Forall (fun i => 47 <= i < 430) indices) as Hrange.
  { unfold indices. destruct is_left; repeat constructor; lia. }
  assert (length indices = 12%nat) as Hlen by (by destruct is_left).
  assert (forall points,
            length points
            = length (filter (fun i => i < Z.of_nat (length landmarks))
                        indices) ->
            Forall (fun p : Z * Z => int32 p.1 = true /\ int32 p.2 = true)
                   points ->
            expected points) as Hexp.
  { intros points Hn Hall. split; [done |]. rewrite Hn.
    split; [| split; [| split; [| done]]].
    - rewrite <- Hlen. apply length_filter.
    - intros Hbig. rewrite <- Hlen. f_equal.
      clear Hn Hlen. induction Hrange as [|i l Hi _ IH]; [done |].
      rewrite filter_cons_True by lia. by rewrite IH.
    - intros Hsmall. apply length_zero_iff_nil. rewrite Hn.
      clear Hn Hlen. induction Hrange as [|i l Hi _ IH]; [done |].
      rewrite filter_cons_False by lia. exact IH. }
  pose proof (contour_points_cases pixel landmarks w h indices) as Hcases.
  destruct (contour_points pixel landmarks w h indices) as [e | points].
  - destruct Hcases as (-> & lm & Hlm & Hnone).
    { eapply Forall_impl; [exact Hrange |]. simpl. lia. }
    split; [done |]. split; [| done].
    intros Hall. destruct (Hall lm Hlm) as (p & Hp & _). congruence.
  - destruct Hcases as [Hn Hpix].
    { eapply Forall_impl; [exact Hrange |]. simpl. lia. }
    destruct (forallb (fun p : Z * Z => int32 p.1 && int32 p.2) points)
      eqn:Hfit.
    + assert (Forall (fun p : Z * Z => int32 p.1 = true /\ int32 p.2 = true)
                points) as Hall.
      { apply Forall_forall. intros p Hp.
        rewrite forallb_forall in Hfit.
        apply list_elem_of_In in Hp. specialize (Hfit p Hp).
        by apply andb_true_iff in Hfit. }
      split; [done |]. split; [by eauto |]. intros ? [= <-]. auto.
    + split; [done |]. split; [| done].
      intros Hall. exfalso.
      assert (forallb (fun p : Z * Z => int32 p.1 && int32 p.2) points
              = true) as Habs; [| congruence].
      apply forallb_forall. intros p Hp. apply list_elem_of_In in Hp.
      rewrite Forall_forall in Hpix.
      destruct (Hpix p Hp) as (lm & Hlm & Hsome).
      destruct (Hall lm Hlm) as (p' & Hp' & H1 & H2).
      assert (p' = p) as -> by congruence. by rewrite H1, H2.
Qed.

Lemma cheek_contour_in_bounds_witness :
  exists points,
    get_cheek_contour_points scaled_pixel (replicate 48 (500, 250)) 640 480
      true = inr points /\
    length points = 1%nat.
Proof.
  destruct (cheek_contour_in_bounds scaled_pixel (replicate 48 (500, 250))
              640 480 true) as (_ & Hret & _).
  destruct Hret as (points & Hp & Hlen & _).
  - intros lm Hlm. apply elem_of_replicate in Hlm as [-> _].
    eexists. split; [reflexivity |]. split; reflexivity.
  - exists points. split; [exact Hp | exact Hlen].
Defined.

(** ** Starting and stopping *)

(** X21: [stop_server] leaves the server stopped with no socket and no
    camera attached; every object an attribute held is closed or released,
    so the only objects still open afterwards are those that had been
    dropped open before; stopping twice is stopping once. *)
Theorem stop_server_releases (h : Lifecycle.handles) :
  let h' := Lifecycle.stop_server h in
  Lifecycle.running h' = false /\
  Lifecycle.server_socket h' = None /\
  Lifecycle.control_socket h' = None /\
  Lifecycle.camera h' = None /\
  Lifecycle.open_resources h'
  = filter (fun r => Lifecycle.is_open r = true) (Lifecycle.dropped h) /\
  Lifecycle.open_resources (Lifecycle.stop_server h')
  = Lifecycle.open_resources h' /\
  Lifecycle.sequence_number h' = Lifecycle.sequence_number h.
Proof.
  destruct h as [r ss cs cam n d].
  unfold Lifecycle.stop_server, Lifecycle.open_resources. simpl.
  repeat split; destruct ss, cs, cam; simpl;
    rewrite ?filter_cons_False by (simpl; discriminate); done.
Qed.

(** X22: however the binds, the camera and the broadcast turn out, the
    main block ends with the server stopped and with no socket or camera
    left open. *)
Theorem main_leaves_nothing_open (env : Lifecycle.environment) :
  Lifecycle.running (Lifecycle.main env) = false /\
  Lifecycle.open_resources (Lifecycle.main env) = [].
Proof.
  destruct env as [[] [] [] [] n]; split; reflexivity.
Qed.

(** X23: [start_server] by itself, on a new server, leaves a socket open
    exactly when one of the two binds fails, and then it has raised: the
    exception leaves the method before any of its clean-up. *)
Theorem start_server_leaks_on_bind_failure (env : Lifecycle.environment) :
  let '(h, res) := Lifecycle.start_server env Lifecycle.initial in
  (Lifecycle.open_resources h <> [] <->
   Lifecycle.bind_server env = false \/ Lifecycle.bind_control env = false) /\
  (Lifecycle.open_resources h <> [] -> res = Lifecycle.Raised) /\
  Lifecycle.running h = false.
Proof.
  destruct env as [[] [] [] [] n]; simpl;
    repeat split; try done; try (intros [? | ?]; done); auto.
Qed.
